(** * OceanSaksham ingestion server (server.js): a shallow embedding

    The webhook pipeline of [server.js] is embedded as Rocq functions over
    an explicit server state.  JavaScript strings are modelled by
    [string], whose characters are read as the code units U+0000..U+00FF;
    payload fields by a small type of JavaScript values with [undefined];
    calls that may throw by a result type; the process-wide mutable
    variables ([reports], [global._geoCache], [lastGeoTs]) by state
    records; every external collaborator (clock, geocoding service, media
    host, messaging gateway, signature check) by an explicit input of the
    step that consults it.  Console output is not part of the state. *)

From Stdlib Require Import ZArith NArith Ascii String List Bool Lia.
From stdpp Require Import base option list strings gmap.

Local Open Scope string_scope.

(** ** JavaScript string primitives *)

Module JsString.

Definition code (c : ascii) : N := N_of_ascii c.

(** [\s], [String.prototype.trim] and [parseInt] share one white space
    set; below U+0100 it is TAB, LF, VT, FF, CR, SPACE and NBSP. *)
Definition isSpace (c : ascii) : bool :=
  let n := code c in
  ((9 <=? n) && (n <=? 13) || (n =? 32) || (n =? 160))%N.

(** Upper-case letters below U+0100: A-Z and U+00C0..U+00DE without the
    multiplication sign U+00D7. *)
Definition isUpper (c : ascii) : bool :=
  let n := code c in
  ((65 <=? n) && (n <=? 90) || (192 <=? n) && (n <=? 222) && negb (n =? 215))%N.

Definition lowerChar (c : ascii) : ascii :=
  if isUpper c then ascii_of_N (code c + 32) else c.

Fixpoint toLowerCase (s : string) : string :=
  match s with
  | EmptyString => EmptyString
  | String c s' => String (lowerChar c) (toLowerCase s')
  end.

(** [s.startsWith(p)] *)
Fixpoint startsWith (s p : string) {struct p} : bool :=
  match p, s with
  | EmptyString, _ => true
  | String _ _, EmptyString => false
  | String a p', String b s' => if Ascii.eqb a b then startsWith s' p' else false
  end.

(** [s.includes(w)] *)
Fixpoint includes (s w : string) : bool :=
  startsWith s w ||
  match s with
  | EmptyString => false
  | String _ s' => includes s' w
  end.

Fixpoint dropN (n : nat) (s : string) : string :=
  match n, s with
  | O, _ => s
  | S _, EmptyString => EmptyString
  | S n', String _ s' => dropN n' s'
  end.

Fixpoint takeN (n : nat) (s : string) : string :=
  match n, s with
  | O, _ => EmptyString
  | S _, EmptyString => EmptyString
  | S n', String c s' => String c (takeN n' s')
  end.

(** [s.replace(p, '')] for a string pattern: only the first occurrence
    is removed. *)
Fixpoint removeFirst (s p : string) : string :=
  if startsWith s p then dropN (String.length p) s
  else match s with
       | EmptyString => EmptyString
       | String c s' => String c (removeFirst s' p)
       end.

(** [s.slice(-n)]: the last [n] code units, the whole string when it is
    shorter. *)
Definition sliceLast (n : nat) (s : string) : string :=
  dropN (String.length s - n) s.

Fixpoint trimStart (s : string) : string :=
  match s with
  | EmptyString => EmptyString
  | String c s' => if isSpace c then trimStart s' else s
  end.

(** Trailing white space is dropped from the right: a suffix made of
    white space only collapses to the empty string. *)
Fixpoint trimEnd (s : string) : string :=
  match s with
  | EmptyString => EmptyString
  | String c s' =>
      match trimEnd s' with
      | EmptyString => if isSpace c then EmptyString else String c EmptyString
      | t => String c t
      end
  end.

Definition trim (s : string) : string := trimEnd (trimStart s).

(** JavaScript truthiness of a string. *)
Definition truthy (s : string) : bool :=
  match s with EmptyString => false | _ => true end.

End JsString.

(** ** JavaScript values and numeric conversions *)

Module Js.
Import JsString.

(** The values a field of the webhook payload can hold: absent, a string,
    or the strings of a repeated form key; booleans arise from
    comparisons. *)
Inductive value : Type :=
| VUndefined
| VString (s : string)
| VBool (b : bool)
| VArray (l : list string).

Definition truthy (v : value) : bool :=
  match v with
  | VUndefined => false
  | VString s => JsString.truthy s
  | VBool b => b
  | VArray _ => true
  end.

(** [a || b] on values that are already computed. *)
Definition or (a b : value) : value := if truthy a then a else b.

Fixpoint join (sep : string) (l : list string) : string :=
  match l with
  | [] => ""
  | [x] => x
  | x :: rest => x ++ sep ++ join sep rest
  end.

(** [String(v)] *)
Definition toString (v : value) : string :=
  match v with
  | VUndefined => "undefined"
  | VString s => s
  | VBool true => "true"
  | VBool false => "false"
  | VArray l => join "," l
  end.

(** A call that may throw: [Throw] carries the name of the error. *)
Inductive result (A : Type) : Type :=
| Ok (a : A)
| Throw (err : string).
Arguments Ok {A} a.
Arguments Throw {A} err.

Definition bind {A B : Type} (m : result A) (f : A -> result B) : result B :=
  match m with
  | Ok a => f a
  | Throw e => Throw e
  end.

(** Method calls on a receiver that has the method only when it is a
    string. *)
Definition callStartsWith (recv : value) (p : string) : result value :=
  match recv with
  | VString s => Ok (VBool (startsWith s p))
  | _ => Throw "TypeError"
  end.

Definition callReplace (recv : value) (p : string) : result value :=
  match recv with
  | VString s => Ok (VString (removeFirst s p))
  | _ => Throw "TypeError"
  end.

Definition callToLowerCase (recv : value) : result string :=
  match recv with
  | VString s => Ok (toLowerCase s)
  | _ => Throw "TypeError"
  end.

(** *** [String(n)] for an integral number below 10^21, as every clock
    reading is; from 10^21 on JavaScript prints an exponent *)

Definition digitChar (d : N) : ascii := ascii_of_N (48 + d).

Fixpoint decimalAux (fuel : nat) (n : N) (acc : string) : string :=
  match fuel with
  | O => acc
  | S fuel' =>
      let acc' := String (digitChar (n mod 10)) acc in
      if (n <? 10)%N then acc' else decimalAux fuel' (n / 10) acc'
  end.

(** A number has no more decimal digits than binary ones. *)
Definition decimalN (n : N) : string :=
  decimalAux (S (N.to_nat (N.log2 n))) n "".

Definition decimal (z : Z) : string :=
  match z with
  | Zneg p => String "-" (decimalN (Npos p))
  | _ => decimalN (Z.to_N z)
  end.

(** *** [parseInt(s)] without a radix; [None] is [NaN] *)

Definition digitValue (radix : N) (c : ascii) : option N :=
  let n := code c in
  let d := if ((48 <=? n) && (n <=? 57))%N then Some (n - 48)%N
           else if ((97 <=? n) && (n <=? 122))%N then Some (n - 87)%N
           else if ((65 <=? n) && (n <=? 90))%N then Some (n - 55)%N
           else None in
  match d with
  | Some v => if (v <? radix)%N then Some v else None
  | None => None
  end.

(** The longest prefix of digits, accumulated left to right. *)
Fixpoint parseDigits (radix : N) (s : string) (acc : option N) : option N :=
  match s with
  | EmptyString => acc
  | String c s' =>
      match digitValue radix c with
      | Some d => parseDigits radix s' (Some (default 0%N acc * radix + d)%N)
      | None => acc
      end
  end.

Definition parseIntString (input : string) : option Z :=
  let s := trimStart input in
  let '(negative, s) :=
    match s with
    | String "-" s' => (true, s')
    | String "+" s' => (false, s')
    | _ => (false, s)
    end in
  let '(radix, s) :=
    if startsWith s "0x" || startsWith s "0X" then (16%N, dropN 2 s) else (10%N, s) in
  match parseDigits radix s None with
  | Some n => Some (if negative then (- Z.of_N n)%Z else Z.of_N n)
  | None => None
  end.

Definition parseInt (v : value) : option Z := parseIntString (toString v).

(** [x > 0] for a number that may be [NaN]. *)
Definition positive (x : option Z) : bool :=
  match x with
  | Some z => (0 <? z)%Z
  | None => false
  end.

End Js.

(** ** Regular expressions, as far as [locationPattern] needs them

    A backtracking matcher in continuation-passing style: alternatives are
    tried left to right, [+] is greedy and gives characters back one at a
    time, and [exec] returns the leftmost match, as [String.prototype.match]
    does for a pattern without the [g] flag. *)

Module Regex.
Import JsString.

Inductive regex : Type :=
| Lit (p : string)
| Alt (r1 r2 : regex)
| Seq (r1 r2 : regex)
| Plus (cls : ascii -> bool)
| Group (r : regex).

(** Flag [i]: two code units below U+0100 have the same canonical form
    exactly when they agree after case folding. *)
Definition ciEq (a b : ascii) : bool := Ascii.eqb (lowerChar a) (lowerChar b).

Fixpoint litMatch (p s : string) : option string :=
  match p, s with
  | EmptyString, _ => Some s
  | String _ _, EmptyString => None
  | String a p', String b s' => if ciEq a b then litMatch p' s' else None
  end.

Fixpoint plusK {R : Type} (cls : ascii -> bool) (s : string)
         (k : string -> option R) : option R :=
  match s with
  | EmptyString => None
  | String c s' =>
      if cls c then
        match plusK cls s' k with
        | Some r => Some r
        | None => k s'
        end
      else None
  end.

(** The state of a match is the rest of the input and the text of
    capture group 1. *)
Fixpoint run (r : regex) (s : string) (cap : option string)
         (k : string -> option string -> option (option string))
  : option (option string) :=
  match r with
  | Lit p => match litMatch p s with Some s' => k s' cap | None => None end
  | Alt r1 r2 =>
      match run r1 s cap k with
      | Some m => Some m
      | None => run r2 s cap k
      end
  | Seq r1 r2 => run r1 s cap (fun s' cap' => run r2 s' cap' k)
  | Plus cls => plusK cls s (fun s' => k s' cap)
  | Group r1 =>
      run r1 s cap
          (fun s' _ => k s' (Some (takeN (String.length s - String.length s') s)))
  end.

Fixpoint exec (r : regex) (s : string) : option (option string) :=
  match run r s None (fun _ cap => Some cap) with
  | Some m => Some m
  | None =>
      match s with
      | EmptyString => None
      | String _ s' => exec r s'
      end
  end.

End Regex.

(** ** The hazard parser: [parseHazardReport] *)

Module Parser.
Import JsString Js Regex.

(** [Object.entries] lists string keys in insertion order, so the two
    keyword tables are association lists in the order of the literals. *)
Definition hazardTypes : list (string * list string) :=
  [ ("flood",   ["flood"; "flooding"; "inundation"]);
    ("tsunami", ["tsunami"; "wave surge"; "surge"]);
    ("storm",   ["storm"; "cyclone"; "wind"]);
    ("waves",   ["wave"; "waves"; "high waves"]) ].

Definition urgencyLevels : list (string * list string) :=
  [ ("urgent", ["urgent"; "immediate"; "emergency"; "help"]);
    ("medium", ["serious"; "dangerous"; "high"]);
    ("low",    ["normal"; "minor"; "small"]) ].

(** [v.some(w => msg.includes(w))] *)
Definition someIncluded (msg : string) (v : list string) : bool :=
  existsb (fun w => includes msg w) v.

(** The [for ... of Object.entries(table)] loop with its [break]. *)
Fixpoint classify (table : list (string * list string)) (msg : string)
         (current : string) : string :=
  match table with
  | [] => current
  | (k, v) :: rest => if someIncluded msg v then k else classify rest msg current
  end.

Definition notDelimiter (c : ascii) : bool :=
  negb (Ascii.eqb c ","%char || Ascii.eqb c "."%char || (code c =? 10)%N).

(** [/(?:at|in|near)\s+([^,\.\n]+)/i] *)
Definition locationPattern : regex :=
  Seq (Alt (Lit "at") (Alt (Lit "in") (Lit "near")))
      (Seq (Plus isSpace) (Group (Plus notDelimiter))).

Record parsed : Type := mkParsed {
  hazardType : string;
  urgency : string;
  location : string;
  originalMessage : value
}.

(** [(messageBody || '').toLowerCase()] throws when the body is neither
    falsy nor a string.  Group 1 takes part in every match of
    [locationPattern], so [m[1]] is a string whenever [m] is not [null]. *)
Definition parseHazardReport (messageBody : value) : result parsed :=
  bind (callToLowerCase (or messageBody (VString ""))) (fun msg =>
  let hazardType := classify hazardTypes msg "other" in
  let urgency := classify urgencyLevels msg "medium" in
  let m := exec locationPattern msg in
  let location :=
    match m with
    | Some g1 => trim (default "" g1)
    | None => "Unknown location"
    end in
  Ok (mkParsed hazardType urgency location messageBody)).

End Parser.

(** ** The channel detector: [getChannelInfo] *)

Module Channel.
Import JsString Js.

Record channelInfo : Type := mkChannelInfo {
  isWhatsApp : value;
  cleanNumber : value;
  channel : string
}.

(** [fromNumber && fromNumber.startsWith('whatsapp:')] evaluates the call
    only for a truthy sender; the conditional operator evaluates
    [replace] only when [isWhatsApp] is truthy. *)
Definition getChannelInfo (fromNumber : value) : result channelInfo :=
  bind (if truthy fromNumber then callStartsWith fromNumber "whatsapp:"
        else Ok fromNumber) (fun isWhatsApp =>
  bind (if truthy isWhatsApp then callReplace fromNumber "whatsapp:"
        else Ok fromNumber) (fun cleanNumber =>
  Ok (mkChannelInfo isWhatsApp cleanNumber
        (if truthy isWhatsApp then "whatsapp" else "sms")))).

End Channel.

(** ** Parsed JSON documents, as the geocoder inspects them *)

Module Json.
Import JsString Js.

#[warnings="-register-all"]
Inductive json : Type :=
| JNull
| JBool (b : bool)
| JNumber (literal : string)
| JString (s : string)
| JArray (items : list json)
| JObject (fields : list (string * json)).

(** Own property of a parsed object; a repeated key keeps its last
    value. *)
Fixpoint lookupField (k : string) (fields : list (string * json)) : option json :=
  match fields with
  | [] => None
  | (k', v) :: rest =>
      match lookupField k rest with
      | Some v' => Some v'
      | None => if String.eqb k k' then Some v else None
      end
  end.

(** [j[0]]; [None] is [undefined]. *)
Definition item0 (j : json) : option json :=
  match j with
  | JArray items => head items
  | JString (String c _) => Some (JString (String c ""))
  | JObject fields => lookupField "0" fields
  | _ => None
  end.

(** [o.k] throws on [null] and [undefined]; arrays, strings, numbers and
    booleans have no such member. *)
Definition member (o : option json) (k : string) : result (option json) :=
  match o with
  | None | Some JNull => Throw "TypeError"
  | Some (JObject fields) => Ok (lookupField k fields)
  | Some _ => Ok None
  end.

End Json.

(** ** What the host platform supplies

    Floating-point parsing, the gateway library's signature check and the
    query-string parser are taken as given. *)

Class Platform : Type := {
  number : Type;
  (** [parseFloat(x)]; [None] is [undefined] *)
  parseFloat : option Json.json -> number;
  (** whether a JSON number literal denotes a number other than 0 *)
  literalTruthy : string -> bool;
  (** [Object.fromEntries(new URLSearchParams(s))] reads these pairs;
      [None] stands for an exception *)
  urlSearchParams : string -> option (list (string * string));
  (** [twilio.validateRequest(authToken, signature, url, params)] *)
  validateRequest : string -> string -> string -> gmap string Js.value -> bool
}.

(** ** The geocoder: [geocodeLocation], its cache and its clock *)

Module Geocoder.
Import JsString Js Json.

Section WithPlatform.
Context `{Platform}.

Record coords : Type := mkCoords { lat : number; lon : number }.

(** What a read of [global._geoCache[place]] can yield besides
    [undefined]: stored coordinates, or a member that the cache object
    inherits from [Object.prototype]. *)
Inductive cached : Type :=
| Coords (c : coords)
| Inherited (name : string).

Definition objectPrototypeMembers : list string :=
  [ "constructor"; "__defineGetter__"; "__defineSetter__"; "hasOwnProperty";
    "__lookupGetter__"; "__lookupSetter__"; "isPrototypeOf";
    "propertyIsEnumerable"; "toString"; "valueOf"; "__proto__";
    "toLocaleString" ].

Record geo : Type := mkGeo {
  geoCache : gmap string coords;
  lastGeoTs : Z;
  (** the places for which a request went out, oldest first *)
  lookups : list string
}.

Definition cacheGet (cache : gmap string coords) (place : string) : option cached :=
  match cache !! place with
  | Some c => Some (Coords c)
  | None =>
      if existsb (String.eqb place) objectPrototypeMembers
      then Some (Inherited place) else None
  end.

(** What the service answered. *)
Inductive reply : Type :=
| NetworkError            (* [fetch] rejects *)
| NotJson                 (* [res.json()] rejects *)
| Body (j : json).

Definition jsonTruthy (j : json) : bool :=
  match j with
  | JNull => false
  | JBool b => b
  | JNumber lit => literalTruthy lit
  | JString s => JsString.truthy s
  | JArray _ | JObject _ => true
  end.

(** Truthiness of [j.length]. *)
Definition lengthTruthy (j : json) : bool :=
  match j with
  | JArray items => negb (Nat.eqb (length items) 0)
  | JString s => JsString.truthy s
  | JObject fields =>
      match lookupField "length" fields with
      | Some v => jsonTruthy v
      | None => false
      end
  | _ => false
  end.

(** The synchronous head of a call, up to its first [await]. *)
Inductive entered : Type :=
| Returned (r : option cached)
| Sleep (waitMs : Z)
| Dispatch.

Definition geoEnter (place : string) (now : Z) (g : geo) : entered :=
  if negb (JsString.truthy place) || String.eqb place "Unknown location"
  then Returned None
  else match cacheGet (geoCache g) place with
       | Some v => Returned (Some v)
       | None =>
           let waitMs := Z.max 0 (1100 - (now - lastGeoTs g)) in
           if (0 <? waitMs)%Z then Sleep waitMs else Dispatch
       end.

(** [lastGeoTs = Date.now()] and the request goes out.  The phrase is a
    string of code units below U+0100, which [encodeURIComponent] always
    encodes; the [URIError] it raises on a lone surrogate lies outside the
    strings modelled here. *)
Definition geoDispatch (place : string) (now : Z) (g : geo) : geo :=
  mkGeo (geoCache g) now (lookups g ++ [place]).

(** The body of the [try] once the answer is in; [Throw] is what the
    [catch] receives. *)
Definition readCoords (r : reply) : result (option coords) :=
  match r with
  | NetworkError => Throw "FetchError"
  | NotJson => Throw "SyntaxError"
  | Body j =>
      if jsonTruthy j && lengthTruthy j then
        bind (member (item0 j) "lat") (fun la =>
        bind (member (item0 j) "lon") (fun lo =>
        Ok (Some (mkCoords (parseFloat la) (parseFloat lo)))))
      else Ok None
  end.

(** The assignment [global._geoCache[place] = coords] is reached only by
    a call whose read of the cache found nothing, so [place] is not the
    name of a member of [Object.prototype] and becomes an own property. *)
Definition geoSettle (place : string) (r : reply) (g : geo) : geo * option cached :=
  match readCoords r with
  | Ok (Some c) =>
      (mkGeo (<[place := c]> (geoCache g)) (lastGeoTs g) (lookups g), Some (Coords c))
  | Ok None | Throw _ => (g, None)
  end.

(** One call that runs to its end with no other call in between. *)
Definition geocodeLocation (place : string) (now1 now2 : Z) (r : reply) (g : geo)
  : geo * option cached :=
  match geoEnter place now1 g with
  | Returned v => (g, v)
  | Sleep _ | Dispatch => geoSettle place r (geoDispatch place now2 g)
  end.

(** *** Calls in flight

    The server handles requests concurrently: a call suspended at an
    [await] shares the cache and the clock with the calls that start
    or resume in the meantime. *)
Inductive pending : Type :=
| Sleeping (place : string)
| Fetching (place : string).

Definition placeOf (p : pending) : string :=
  match p with Sleeping q | Fetching q => q end.

Definition system : Type := (geo * list pending)%type.

Inductive label : Type :=
| LReturn (place : string) (r : option cached)
| LSuspend (place : string)
| LWake (place : string)
| LSettle (place : string) (r : option cached).

Inductive step : system -> label -> system -> Prop :=
| step_hit place now g pool r :
    geoEnter place now g = Returned r ->
    step (g, pool) (LReturn place r) (g, pool)
| step_sleep place now g pool w :
    geoEnter place now g = Sleep w ->
    step (g, pool) (LSuspend place) (g, (pool ++ [Sleeping place])%list)
| step_dispatch place now now' g pool :
    geoEnter place now g = Dispatch ->
    step (g, pool) (LSuspend place)
         (geoDispatch place now' g, (pool ++ [Fetching place])%list)
| step_wake place now g pre post :
    step (g, (pre ++ Sleeping place :: post)%list) (LWake place)
         (geoDispatch place now g, (pre ++ Fetching place :: post)%list)
| step_settle place r g pre post :
    step (g, (pre ++ Fetching place :: post)%list)
         (LSettle place (snd (geoSettle place r g)))
         (fst (geoSettle place r g), (pre ++ post)%list).

Inductive steps : system -> system -> Prop :=
| steps_refl s : steps s s
| steps_step s l s' s'' : step s l s' -> steps s' s'' -> steps s s''.

Definition initial : system := (mkGeo ∅ 0 [], []).

End WithPlatform.
End Geocoder.

(** ** The report store: [reports], [persistReports], [saveReport] *)

Module Store.
Import JsString Js.

Section WithPlatform.
Context `{Platform}.

Record mediaInfo : Type := mkMedia {
  filename : string;
  filepath : string;
  size : N;
  contentType : value;
  url : string
}.

(** The object literal [reportData]. *)
Record draft : Type := mkDraft {
  phoneNumber : value;
  message : value;
  hazardType : string;
  location : string;
  coordinates : option Geocoder.cached;
  urgency : string;
  messageSid : value;
  source : string;
  status : string;
  hasMedia : value
}.

(** The same object once [saveReport] has added [id] and [createdAt];
    [createdAt] holds the clock reading that [toISOString] renders. *)
Record report : Type := mkReport {
  data : draft;
  id : string;
  createdAt : Z;
  media : option mediaInfo
}.

Record store : Type := mkStore {
  reports : list report;
  (** what [reports.json] holds *)
  reportsFile : list report
}.

(** [writeFileSync] may fail; the failure is logged and swallowed.  A
    failed write stands here for one that fails before the file is
    touched; what a write that breaks off half-way leaves in the file is
    not modelled, and nothing below depends on the file after a failure. *)
Definition persistReports (diskOk : bool) (s : store) : store :=
  if diskOk then mkStore (reports s) (reports s) else s.

(** [`REP${String(Date.now()).slice(-9)}`] *)
Definition reportId (now : Z) : string := "REP" ++ sliceLast 9 (decimal now).

Definition saveReport (d : draft) (now created : Z) (diskOk : bool) (s : store)
  : store * report :=
  let r := mkReport d (reportId now) created None in
  let rs := r :: reports s in
  let rs := if (1000 <? length rs)%nat then take 1000 rs else rs in
  (persistReports diskOk (mkStore rs (reportsFile s)), r).

(** [reports.findIndex(f)]; [None] is [-1]. *)
Fixpoint findIndex (f : report -> bool) (l : list report) : option nat :=
  match l with
  | [] => None
  | r :: rest => if f r then Some O else S <$> findIndex f rest
  end.

(** [app.get('/api/reports')]: [{ count: reports.length, reports }] *)
Definition apiReports (s : store) : nat * list report :=
  (length (reports s), reports s).

(** A run of creates, oldest first, each with what it reads from the
    outside. *)
Record creation : Type := mkCreation {
  draftOf : draft;
  idClock : Z;
  stampClock : Z;
  diskOk : bool
}.

Fixpoint saveAll (cs : list creation) (s : store) : store * list report :=
  match cs with
  | [] => (s, [])
  | c :: rest =>
      let '(s1, r) := saveReport (draftOf c) (idClock c) (stampClock c) (diskOk c) s in
      let '(s2, rs) := saveAll rest s1 in
      (s2, r :: rs)
  end.

End WithPlatform.
End Store.

(** ** The webhook: validation, media, confirmation and the handler *)

Module Webhook.
Import JsString Js.

Record config : Type := mkConfig {
  TWILIO_ACCOUNT_SID : string;
  TWILIO_AUTH_TOKEN : string;
  TWILIO_PHONE_NUMBER : string;
  TWILIO_WHATSAPP_FROM : string;
  TWILIO_WEBHOOK_URL : string
}.

Record request : Type := mkRequest {
  signatureHeader : option string;      (* [req.headers['x-twilio-signature']] *)
  protocol : string;
  host : option string;                 (* [req.get('host')] *)
  originalUrl : string;
  rawBody : option string;
  body : gmap string value
}.

Record response : Type := mkResponse {
  statusCode : nat;
  contentTypeHeader : option string;
  payload : string
}.

Record outbound : Type := mkOutbound {
  text : string;
  sender : string;
  recipient : value
}.

Inductive download : Type :=
| DownloadFailed                        (* [fetch] or [response.buffer()] rejects *)
| DownloadStatus (ok : bool) (bytes : N).

(** What the outside world answers during one request. *)
Record env : Type := mkEnv {
  geoClock1 : Z;
  geoClock2 : Z;
  geoReply : Geocoder.reply;
  saveClock : Z;
  createdClock : Z;
  saveDiskOk : bool;
  mediaReply : download;
  mediaClock : Z;
  mediaWriteOk : bool;
  mediaDiskOk : bool
}.

Definition nl : string := String (ascii_of_N 10) "".

Section WithPlatform.
Context `{Platform}.

Record world : Type := mkWorld {
  geocoder : Geocoder.geo;
  store : Store.store;
  mediaFiles : list (string * N);     (* files in [MEDIA_DIR] *)
  emitted : list Store.report;        (* [io.emit('new-report', _)] *)
  outbox : list outbound              (* [twilioClient.messages.create] *)
}.

Definition field (req : request) (name : string) : value :=
  default VUndefined (body req !! name).

(** [Object.fromEntries]: a later pair replaces an earlier one. *)
Definition fromEntries (entries : list (string * string)) : gmap string value :=
  foldl (fun m kv => <[fst kv := VString (snd kv)]> m) ∅ entries.

Definition validationUrl (cfg : config) (req : request) : string :=
  if JsString.truthy (TWILIO_WEBHOOK_URL cfg) then TWILIO_WEBHOOK_URL cfg
  else protocol req ++ "://" ++ default "undefined" (host req) ++ originalUrl req.

Definition validationParams (req : request) : gmap string value :=
  match rawBody req with
  | Some raw =>
      if JsString.truthy raw then
        match urlSearchParams raw with
        | Some entries => fromEntries entries
        | None => body req
        end
      else body req
  | None => body req
  end.

Definition validateTwilioRequest (cfg : config) (req : request) : bool :=
  if negb (JsString.truthy (TWILIO_AUTH_TOKEN cfg)) then true
  else validateRequest (TWILIO_AUTH_TOKEN cfg)
                       (default "" (signatureHeader req))
                       (validationUrl cfg req)
                       (validationParams req).

Definition extensions : list (string * string) :=
  [ ("image/jpeg", ".jpg"); ("image/jpg", ".jpg"); ("image/png", ".png");
    ("image/gif", ".gif"); ("image/webp", ".webp"); ("video/mp4", ".mp4");
    ("video/quicktime", ".mov"); ("audio/mpeg", ".mp3"); ("audio/ogg", ".ogg");
    ("application/pdf", ".pdf"); ("text/plain", ".txt") ].

(** [extensions[contentType] || '.bin'], for content types that are not
    names of members of [Object.prototype]. *)
Definition getFileExtension (contentType : value) : string :=
  match List.find (fun kv => String.eqb (fst kv) (toString contentType)) extensions with
  | Some kv => snd kv
  | None => ".bin"
  end.

Definition downloadMedia (cfg : config) (e : env) (mediaUrl mediaContentType : value)
           (reportId : string) (files : list (string * N))
  : list (string * N) * option Store.mediaInfo :=
  if negb (truthy mediaUrl) || negb (JsString.truthy (TWILIO_ACCOUNT_SID cfg))
     || negb (JsString.truthy (TWILIO_AUTH_TOKEN cfg))
  then (files, None)
  else match mediaReply e with
       | DownloadFailed => (files, None)
       | DownloadStatus false _ => (files, None)
       | DownloadStatus true bytes =>
           let ext := getFileExtension mediaContentType in
           let filename := reportId ++ "_" ++ decimal (mediaClock e) ++ ext in
           let filepath := "media/" ++ filename in
           if mediaWriteOk e then
             ((files ++ [(filepath, bytes)])%list,
              Some (Store.mkMedia filename filepath bytes mediaContentType
                                  ("/media/" ++ filename)))
           else (files, None)
       end.

Definition confirmationText (r : Store.report) : string :=
  "✅ Report received!" ++ nl ++
  "Location: " ++ Store.location (Store.data r) ++ nl ++
  "Type: " ++ Store.hazardType (Store.data r) ++ nl ++
  "Ref: " ++ Store.id r ++ nl ++
  "Authorities notified. Stay safe!" ++ nl ++ "- OceanSaksham".

(** The addressing inside the [try]; a throw is caught and nothing is
    sent. *)
Definition confirmationAddress (cfg : config) (toNumber : value) (channel : string)
  : result (string * value) :=
  if String.eqb channel "whatsapp" then
    let fromNumber := if JsString.truthy (TWILIO_WHATSAPP_FROM cfg)
                      then TWILIO_WHATSAPP_FROM cfg else "whatsapp:+14155208886" in
    bind (callStartsWith toNumber "whatsapp:") (fun prefixed =>
    if truthy prefixed then Ok (fromNumber, toNumber)
    else bind (callReplace toNumber "whatsapp:") (fun bare =>
         Ok (fromNumber, VString ("whatsapp:" ++ toString bare))))
  else
    bind (callReplace toNumber "whatsapp:") (fun bare =>
    Ok (TWILIO_PHONE_NUMBER cfg, bare)).

(** The handler ignores what the call returns; only the request that
    reaches the gateway is recorded. *)
Definition sendConfirmationMessage (cfg : config) (toNumber : value)
           (r : Store.report) (channel : string) (sent : list outbound)
  : list outbound :=
  if negb (JsString.truthy (TWILIO_ACCOUNT_SID cfg))
     || negb (JsString.truthy (TWILIO_AUTH_TOKEN cfg))
  then sent
  else match confirmationAddress cfg toNumber channel with
       | Ok (fromNumber, toFormatted) =>
           (sent ++ [mkOutbound (confirmationText r) fromNumber toFormatted])%list
       | Throw _ => sent
       end.

(** [NumMedia && parseInt(NumMedia) > 0] *)
Definition mediaDeclared (numMedia : value) : value :=
  if truthy numMedia then VBool (positive (parseInt numMedia)) else numMedia.

Definition forbidden : response :=
  mkResponse 403 None "Forbidden - invalid Twilio signature".
Definition serverError : response :=
  mkResponse 500 (Some "text/xml") "<Response><Message>Error</Message></Response>".
Definition accepted : response :=
  mkResponse 200 (Some "text/xml") "<Response></Response>".

Definition reportData (req : request) (ci : Channel.channelInfo)
           (parsed : Parser.parsed) (coords : option Geocoder.cached) : Store.draft :=
  Store.mkDraft (field req "From")
                (or (field req "Body") (VString "[Media message]"))
                (Parser.hazardType parsed)
                (Parser.location parsed)
                coords
                (Parser.urgency parsed)
                (field req "MessageSid")
                (Channel.channel ci)
                "pending"
                (mediaDeclared (field req "NumMedia")).

(** The media branch: the saved report and the head of [reports] are
    one object, so [report.media = mediaInfo] shows in the store before
    the lookup by id. *)
Definition attachMedia (cfg : config) (e : env) (req : request)
           (r : Store.report) (s : Store.store) (files : list (string * N))
  : Store.store * list (string * N) * Store.report :=
  if truthy (mediaDeclared (field req "NumMedia")) && truthy (field req "MediaUrl0")
  then
    match downloadMedia cfg e (field req "MediaUrl0") (field req "MediaContentType0")
                        (Store.id r) files with
    | (files', Some info) =>
        let r' := Store.mkReport (Store.data r) (Store.id r) (Store.createdAt r) (Some info) in
        let shared := Store.mkStore (<[O := r']> (Store.reports s)) (Store.reportsFile s) in
        match Store.findIndex (fun x => String.eqb (Store.id x) (Store.id r'))
                              (Store.reports shared) with
        | Some i =>
            (Store.persistReports (mediaDiskOk e)
               (Store.mkStore (<[i := r']> (Store.reports shared)) (Store.reportsFile shared)),
             files', r')
        | None => (shared, files', r')
        end
    | (files', None) => (s, files', r)
    end
  else (s, files, r).

(** [app.post('/api/twilio/incoming-sms', ...)] for one request that no
    other request interleaves with. *)
Definition incomingSms (cfg : config) (e : env) (req : request) (w : world)
  : world * response :=
  if negb (validateTwilioRequest cfg req) then (w, forbidden)
  else
    match bind (Channel.getChannelInfo (field req "From")) (fun ci =>
          bind (Parser.parseHazardReport (or (field req "Body") (VString ""))) (fun parsed =>
          Ok (ci, parsed))) with
    | Throw _ => (w, serverError)
    | Ok (ci, parsed) =>
        let '(g, coords) :=
          Geocoder.geocodeLocation (Parser.location parsed) (geoClock1 e) (geoClock2 e)
                                   (geoReply e) (geocoder w) in
        let '(s1, r) :=
          Store.saveReport (reportData req ci parsed coords) (saveClock e)
                           (createdClock e) (saveDiskOk e) (store w) in
        let '(s2, files, r') := attachMedia cfg e req r s1 (mediaFiles w) in
        let sent := sendConfirmationMessage cfg (field req "From") r'
                                            (Channel.channel ci) (outbox w) in
        (mkWorld g s2 files (emitted w ++ [r'])%list sent, accepted)
    end.

End WithPlatform.
End Webhook.

(** ** A stand-in platform, on which the examples below run

    Numbers are kept as the text they were parsed from, and a signature is
    valid when it spells the secret followed by the URL. *)

Definition plainPlatform : Platform := {|
  number := option Json.json;
  parseFloat := fun x => x;
  literalTruthy := fun lit => negb (String.eqb lit "0");
  urlSearchParams := fun _ => Some [];
  validateRequest := fun token signature url _ => String.eqb signature (token ++ url)
|}.

(** * The vocabulary of the properties *)

(** ** Classification by first match *)

Module ParserSpec.
Import JsString Js.

(** The classification as the specification words it: the categories are
    tried in order, a category matches when one of its keywords is a
    substring of the message, the first matching category is the answer
    and the fallback is the answer when none matches. *)
Definition isSubstring (w msg : string) : Prop :=
  exists pre post, msg = pre ++ w ++ post.

Definition categoryMatches (msg : string) (keywords : list string) : Prop :=
  exists w, In w keywords /\ isSubstring w msg.

Inductive firstMatching (msg : string)
  : list (string * list string) -> string -> string -> Prop :=
| fm_fallback fallback :
    firstMatching msg [] fallback fallback
| fm_here k keywords rest fallback :
    categoryMatches msg keywords ->
    firstMatching msg ((k, keywords) :: rest) fallback k
| fm_later k keywords rest fallback answer :
    ~ categoryMatches msg keywords ->
    firstMatching msg rest fallback answer ->
    firstMatching msg ((k, keywords) :: rest) fallback answer.

(** The body as the handler passes it: absent or a string. *)
Definition bodyValue (b : option string) : value :=
  match b with Some s => VString s | None => VUndefined end.

End ParserSpec.

(** ** Strings of decimal digits *)

Module Decimal.
Import JsString.
Local Open Scope N_scope.

(** The number a string of decimal digits denotes. *)
Fixpoint valueAcc (s : string) (acc : N) : N :=
  match s with
  | EmptyString => acc
  | String c s' => valueAcc s' (acc * 10 + (code c - 48))
  end.

Definition valueOf (s : string) : N := valueAcc s 0.

Fixpoint allDigits (s : string) : Prop :=
  match s with
  | EmptyString => True
  | String c s' => (48 <= code c <= 57) /\ allDigits s'
  end.

End Decimal.

(** ** Answers of the geocoding service and states of the cache *)

Module GeocoderSpec.
Import JsString Js Json Geocoder.

Section WithPlatform.
Context `{Platform}.


(** A place passes the guard at the head of [geocodeLocation]. *)
Definition guardPasses (place : string) : Prop :=
  negb (JsString.truthy place) || String.eqb place "Unknown location" = false.


(** Every stored phrase and every phrase in flight has passed the guard. *)
Definition guarded (sys : system) : Prop :=
  (forall place c, geoCache (fst sys) !! place = Some c -> guardPasses place) /\
  Forall (fun q => guardPasses (placeOf q)) (snd sys).


End WithPlatform.
End GeocoderSpec.

(** ** The entry of an answer that the geocoder reads *)

Module LookupSpec.
Import JsString Js Json Geocoder.

Section WithPlatform.
Context `{Platform}.




End WithPlatform.
End LookupSpec.

(** ** Concrete runs on the stand-in platform *)

Module Runs.
Import JsString Js Json Geocoder Store Webhook.
#[local] Existing Instance plainPlatform.

Definition place : string := "marina beach".

Definition chennai : reply :=
  Body (JArray [JObject [("lat", JString "13.0500"); ("lon", JString "80.2824")]]).
Definition elsewhere : reply :=
  Body (JArray [JObject [("lat", JString "13.0561"); ("lon", JString "80.2833")]]).

Definition coordsOf (la lo : string) : coords :=
  mkCoords (Some (JString la)) (Some (JString lo)).

Definition t0 : Z := 1762063200000.

Definition geo0 : geo := mkGeo ∅ 0 [].

(** Two overlapping calls for the same phrase: the first is dispatched,
    the second goes to sleep, the first settles and stores its match,
    the second wakes, is dispatched and settles in turn. *)
Definition afterFirst : system :=
  (fst (geoSettle place chennai (geoDispatch place t0 geo0)), [Sleeping place]).
Definition afterSecond : system :=
  (fst (geoSettle place elsewhere (geoDispatch place (t0 + 1100) (fst afterFirst))), []).

Definition cfg : config :=
  mkConfig "AC0123" "secret" "+15550001111" "" "https://example.org/api/twilio/incoming-sms".

Definition goodSignature : string :=
  "secret" ++ "https://example.org/api/twilio/incoming-sms".

Definition requestWith (signature : string) (fields : list (string * value)) : request :=
  mkRequest (Some signature) "https" (Some "example.org") "/api/twilio/incoming-sms"
            None (list_to_map fields).

Definition quiet : env :=
  mkEnv t0 t0 NetworkError (t0 + 1200) (t0 + 1200) true DownloadFailed (t0 + 1300) true true.

Definition world0 : world := mkWorld geo0 (mkStore [] []) [] [] [].

Definition emptyBody : request :=
  requestWith goodSignature
              [("From", VString "+15551234567"); ("Body", VString ""); ("NumMedia", VString "1")].

Definition noNumMedia : request :=
  requestWith goodSignature
              [("From", VString "+15551234567"); ("Body", VString "storm warning at Port X")].

Definition tampered : request :=
  requestWith "forged"
              [("From", VString "+15551234567"); ("Body", VString "storm warning at Port X")].

Definition sampleDraft : draft :=
  mkDraft (VString "+15551234567") (VString "storm warning at Port X") "storm" "port x"
          None "medium" (VString "SM1") "sms" "pending" (VBool false).

Definition sameMillisecond : list creation :=
  replicate 1000 (mkCreation sampleDraft t0 t0 true).

Definition threeCreates : list creation :=
  [ mkCreation sampleDraft t0 t0 true;
    mkCreation sampleDraft (t0 + 1) (t0 + 1) true;
    mkCreation sampleDraft (t0 + 7) (t0 + 7) true ].

End Runs.

(** ** Vocabulary of the further properties *)

Module MoreSpec.
Import JsString Js.

(** The hazard table without the keywords that contain another keyword of
    the same or an earlier category. *)
Definition coreHazardTypes : list (string * list string) :=
  [ ("flood",   ["flood"; "inundation"]);
    ("tsunami", ["tsunami"; "surge"]);
    ("storm",   ["storm"; "cyclone"; "wind"]);
    ("waves",   ["wave"]) ].

(** The values on which a string method cannot be called although the
    guard [v && ...] or [v || ''] lets them through. *)
Definition truthyNonString (v : value) : Prop :=
  v = VBool true \/ exists l, v = VArray l.

(** No character of the string satisfies the test. *)
Fixpoint noneOf (test : ascii -> bool) (s : string) : Prop :=
  match s with
  | EmptyString => True
  | String c s' => test c = false /\ noneOf test s'
  end.

Definition isDelimiter (c : ascii) : bool := negb (Parser.notDelimiter c).

(** The same answers of the outside world, with other outcomes of the two
    writes of [reports.json]. *)
Definition withDisk (e : Webhook.env) (save media : bool) : Webhook.env :=
  Webhook.mkEnv (Webhook.geoClock1 e) (Webhook.geoClock2 e) (Webhook.geoReply e)
                (Webhook.saveClock e) (Webhook.createdClock e) save
                (Webhook.mediaReply e) (Webhook.mediaClock e) (Webhook.mediaWriteOk e) media.

End MoreSpec.

(** ** Further concrete runs *)

Module MoreRuns.
Import JsString Js Json Geocoder Store Webhook Runs.
#[local] Existing Instance plainPlatform.

(** A payload without [From]. *)
Definition anonymous : request :=
  requestWith goodSignature [("Body", VString "high waves near the pier")].

(** A chat-app message with one attachment. *)
Definition withPhoto : request :=
  requestWith goodSignature
              [("From", VString "whatsapp:+15551234567"); ("Body", VString "flooding in Adyar");
               ("NumMedia", VString "1"); ("MediaUrl0", VString "https://media.example/1");
               ("MediaContentType0", VString "image/jpeg")].

(** The geocoder answers and the download succeeds. *)
Definition helpful : env :=
  mkEnv t0 t0 chennai (t0 + 1200) (t0 + 1200) true (DownloadStatus true 2048) (t0 + 1300)
        true true.

Definition noSecret : config :=
  mkConfig "AC0123" "" "+15550001111" "" "".

End MoreRuns.

(** * Properties *)

(** ** Strings *)

Section StringFacts.
Import JsString.

Lemma app_cons (c : ascii) (a b : string) : String c a ++ b = String c (a ++ b).
Proof. reflexivity. Qed.

Lemma app_empty (b : string) : "" ++ b = b.
Proof. reflexivity. Qed.

Lemma app_assoc_string (a b c : string) : (a ++ b) ++ c = a ++ b ++ c.
Proof.
  induction a as [|x a IH]; [reflexivity|].
  now rewrite !app_cons, IH.
Qed.

Lemma app_empty_r (a : string) : a ++ "" = a.
Proof.
  induction a as [|x a IH]; [reflexivity|].
  now rewrite app_cons, IH.
Qed.

Lemma startsWith_spec (s p : string) :
  startsWith s p = true <-> exists rest, s = p ++ rest.
Proof.
  revert s; induction p as [|a p IH]; intros s; simpl.
  - split; [intros _; exists s; reflexivity | reflexivity].
  - destruct s as [|b s].
    + split; [discriminate | intros [rest Hr]; rewrite app_cons in Hr; discriminate].
    + destruct (Ascii.eqb_spec a b) as [->|Hne].
      * rewrite IH. split.
        -- intros [rest ->]. exists rest. reflexivity.
        -- intros [rest Hr]. rewrite app_cons in Hr. injection Hr as ->.
           exists rest. reflexivity.
      * split; [discriminate | intros [rest Hr]; rewrite app_cons in Hr; congruence].
Qed.

(** [includes] is the substring test. *)
Lemma includes_spec (s w : string) :
  includes s w = true <-> exists pre post, s = pre ++ w ++ post.
Proof.
  induction s as [|c s IH]; simpl.
  - rewrite orb_false_r, startsWith_spec. split.
    + intros [rest Hr]. exists "", rest. exact Hr.
    + intros [pre [post Hs]]. destruct pre; [exists post; exact Hs |].
      rewrite app_cons in Hs. discriminate.
  - rewrite orb_true_iff, startsWith_spec, IH. split.
    + intros [[rest Hr] | [pre [post Hs]]].
      * exists "", rest. exact Hr.
      * exists (String c pre), post. rewrite app_cons. now rewrite Hs.
    + intros [pre [post Hs]]. destruct pre as [|c' pre].
      * left. exists post. exact Hs.
      * right. rewrite app_cons in Hs. injection Hs as _ ->.
        exists pre, post. reflexivity.
Qed.

Lemma takeN_dropN (n : nat) (s : string) : takeN n s ++ dropN n s = s.
Proof.
  revert s; induction n as [|n IH]; intros [|c s]; simpl; try reflexivity.
  now rewrite app_cons, IH.
Qed.

Lemma dropN_length (n : nat) (s : string) :
  String.length (dropN n s) = (String.length s - n)%nat.
Proof.
  revert s; induction n as [|n IH]; intros [|c s]; simpl; try reflexivity.
  apply IH.
Qed.

Lemma append_length (a b : string) :
  String.length (a ++ b) = (String.length a + String.length b)%nat.
Proof.
  induction a as [|c a IH]; [reflexivity|].
  rewrite app_cons. simpl. now rewrite IH.
Qed.

End StringFacts.

(** ** The hazard parser *)

Section ParserFacts.
Import JsString Js Parser ParserSpec.

Lemma someIncluded_spec (msg : string) (keywords : list string) :
  someIncluded msg keywords = true <-> categoryMatches msg keywords.
Proof.
  unfold someIncluded, categoryMatches, isSubstring.
  rewrite existsb_exists. split; intros [w [Hin Hw]]; exists w; split; trivial;
    now apply includes_spec.
Qed.

Lemma classify_firstMatching (table : list (string * list string)) (msg fallback : string) :
  firstMatching msg table fallback (classify table msg fallback).
Proof.
  induction table as [|[k keywords] rest IH]; simpl.
  - constructor.
  - destruct (someIncluded msg keywords) eqn:Hm.
    + apply fm_here. now apply someIncluded_spec.
    + apply fm_later; [|exact IH].
      intros Hc. apply someIncluded_spec in Hc. congruence.
Qed.

Lemma firstMatching_functional msg table fallback a b :
  firstMatching msg table fallback a -> firstMatching msg table fallback b -> a = b.
Proof.
  intros Ha; revert b.
  induction Ha as [| k keywords rest fallback Hm | k keywords rest fallback answer Hn Hf IH];
    intros b Hb; inversion Hb; subst; try reflexivity; try contradiction.
  now apply IH.
Qed.

Lemma firstMatching_none msg table fallback answer :
  firstMatching msg table fallback answer ->
  (forall k keywords, In (k, keywords) table -> ~ categoryMatches msg keywords) ->
  answer = fallback.
Proof.
  induction 1 as [| k keywords rest fallback Hm | k keywords rest fallback answer Hn Hf IH];
    intros Hall.
  - reflexivity.
  - exfalso. apply (Hall k keywords); [left; reflexivity | exact Hm].
  - apply IH. intros k' kw' Hin. apply (Hall k' kw'). right. exact Hin.
Qed.

(** C2: on "Flooding near Marina Beach, urgent help needed" the parser
    returns hazard type "flood" and urgency "urgent"; the location it
    returns is "marina beach", cut at the comma and trimmed but taken from
    the case-folded message, not "Marina Beach" as typed. *)
Theorem parse_marina_beach :
  parseHazardReport (VString "Flooding near Marina Beach, urgent help needed")
  = Ok (mkParsed "flood" "urgent" "marina beach"
                 (VString "Flooding near Marina Beach, urgent help needed")).
Proof. vm_compute. reflexivity. Qed.

(** C5: for every message body (absent counts as empty) the parser
    answers; over the case-folded text the hazard type is the first
    matching category in the order flood, tsunami, storm, waves, or
    "other" when no keyword of any category is a substring; the urgency
    is the first matching level in the order urgent, medium, low, or
    "medium" when no trigger is a substring. *)
Theorem parse_first_match (b : option string) :
  exists p,
    parseHazardReport (bodyValue b) = Ok p /\
    let msg := toLowerCase (default "" b) in
    map fst hazardTypes = ["flood"; "tsunami"; "storm"; "waves"] /\
    map fst urgencyLevels = ["urgent"; "medium"; "low"] /\
    firstMatching msg hazardTypes "other" (hazardType p) /\
    firstMatching msg urgencyLevels "medium" (urgency p) /\
    ((forall k keywords, In (k, keywords) hazardTypes -> ~ categoryMatches msg keywords) ->
     hazardType p = "other") /\
    ((forall k keywords, In (k, keywords) urgencyLevels -> ~ categoryMatches msg keywords) ->
     urgency p = "medium").
Proof.
  assert (Hlow : callToLowerCase (or (bodyValue b) (VString ""))
                 = Ok (toLowerCase (default "" b))).
  { destruct b as [[|c s]|]; reflexivity. }
  unfold parseHazardReport. rewrite Hlow. cbn [bind].
  eexists. split; [reflexivity|]. cbn [hazardType urgency].
  repeat split.
  - apply classify_firstMatching.
  - apply classify_firstMatching.
  - intros Hnone. eapply firstMatching_none; [apply classify_firstMatching | exact Hnone].
  - intros Hnone. eapply firstMatching_none; [apply classify_firstMatching | exact Hnone].
Qed.

End ParserFacts.

(** ** The channel detector *)

Section ChannelFacts.
Import JsString Js Channel.

(** C7, as stated, fails for an absent sender: the clean number is then
    absent too, not the empty string, and [isWhatsApp] is not [false]. *)
Lemma channel_absent_not_empty_string :
  getChannelInfo VUndefined <> Ok (mkChannelInfo (VBool false) (VString "") "sms").
Proof. vm_compute. discriminate. Qed.

(** C7 (amended): the detector does not throw on an absent or empty
    sender; it answers channel "sms" with [isWhatsApp] and the clean
    number both equal to the input itself (absent for absent, the empty
    string for empty), hence a falsy [isWhatsApp]; for a sender that
    starts with "whatsapp:" it answers [isWhatsApp] true, channel
    "whatsapp" and the clean number with the prefix stripped. *)
Theorem channel_detector_total :
  (exists info,
      getChannelInfo VUndefined = Ok info /\
      isWhatsApp info = VUndefined /\ truthy (isWhatsApp info) = false /\
      cleanNumber info = VUndefined /\ channel info = "sms") /\
  (exists info,
      getChannelInfo (VString "") = Ok info /\
      isWhatsApp info = VString "" /\ truthy (isWhatsApp info) = false /\
      cleanNumber info = VString "" /\ channel info = "sms") /\
  forall number : string,
    getChannelInfo (VString ("whatsapp:" ++ number))
    = Ok (mkChannelInfo (VBool true) (VString number) "whatsapp").
Proof.
  split; [|split].
  - eexists. split; [reflexivity|]. repeat split.
  - eexists. split; [reflexivity|]. repeat split.
  - intros number. reflexivity.
Qed.

End ChannelFacts.

(** ** Decimal rendering of clock readings *)

Section DecimalFacts.
Import JsString Js Decimal.
Local Open Scope N_scope.

Lemma code_digitChar (d : N) : d < 10 -> code (digitChar d) = 48 + d.
Proof.
  intros Hd. unfold code, digitChar. apply N_ascii_embedding. lia.
Qed.

Lemma valueAcc_app (a b : string) (acc : N) :
  valueAcc (a ++ b) acc = valueAcc b (valueAcc a acc).
Proof.
  revert acc; induction a as [|c a IH]; intros acc; [reflexivity|].
  rewrite app_cons. simpl. apply IH.
Qed.

Lemma valueAcc_shift (b : string) (acc : N) :
  valueAcc b acc = acc * 10 ^ N.of_nat (String.length b) + valueOf b.
Proof.
  unfold valueOf. revert acc; induction b as [|c b IH]; intros acc.
  - simpl. lia.
  - cbn [valueAcc String.length]. rewrite IH, (IH (0 * 10 + _)).
    rewrite Nat2N.inj_succ, N.pow_succ_r'. lia.
Qed.

Lemma valueOf_bound (b : string) :
  allDigits b -> valueOf b < 10 ^ N.of_nat (String.length b).
Proof.
  unfold valueOf. induction b as [|c b IH]; intros Hd.
  - simpl. lia.
  - destruct Hd as [Hc Hb]. cbn [valueAcc String.length].
    rewrite valueAcc_shift. specialize (IH Hb). unfold valueOf in *.
    rewrite Nat2N.inj_succ, N.pow_succ_r'. nia.
Qed.

Lemma allDigits_app (a b : string) :
  allDigits (a ++ b) <-> allDigits a /\ allDigits b.
Proof.
  induction a as [|c a IH]; [simpl; tauto|].
  rewrite app_cons. simpl. rewrite IH. tauto.
Qed.

(** With enough fuel the digits put in front of [acc] denote [n]. *)
Lemma decimalAux_spec (fuel : nat) (n : N) (acc : string) :
  n < 10 ^ N.of_nat fuel ->
  exists d, decimalAux fuel n acc = d ++ acc /\ allDigits d /\ valueOf d = n.
Proof.
  revert n acc; induction fuel as [|fuel IH]; intros n acc Hn.
  - exists "". simpl in Hn. split; [reflexivity|]. split; [exact I|].
    unfold valueOf. simpl. lia.
  - cbn [decimalAux]. rewrite Nat2N.inj_succ, N.pow_succ_r' in Hn.
    assert (Hmod : n mod 10 < 10) by (apply N.mod_lt; lia).
    pose proof (N.div_mod n 10) as Hdm.
    pose proof (code_digitChar (n mod 10) Hmod) as Hcode.
    set (m := n mod 10) in *. set (q := n / 10) in *.
    destruct (N.ltb_spec n 10) as [Hlt|Hge].
    + exists (String (digitChar m) "").
      split; [reflexivity|].
      assert (Hq : q = 0) by (subst q; now apply N.div_small).
      split.
      * cbn [allDigits]. rewrite Hcode. lia.
      * unfold valueOf. cbn [valueAcc]. rewrite Hcode. lia.
    + destruct (IH q (String (digitChar m) acc)) as (d & Hd & Hall & Hval).
      { subst q. apply N.Div0.div_lt_upper_bound. lia. }
      exists (d ++ String (digitChar m) "").
      split; [|split].
      * rewrite Hd. now rewrite app_assoc_string.
      * apply allDigits_app. split; [exact Hall|]. cbn [allDigits].
        rewrite Hcode. lia.
      * unfold valueOf in *. rewrite valueAcc_app, Hval. cbn [valueAcc].
        rewrite Hcode. lia.
Qed.

Lemma decimalN_spec (n : N) :
  allDigits (decimalN n) /\ valueOf (decimalN n) = n.
Proof.
  unfold decimalN.
  destruct (decimalAux_spec (S (N.to_nat (N.log2 n))) n "") as (d & Hd & Hall & Hval).
  - rewrite Nat2N.inj_succ, N2Nat.id.
    destruct (N.eq_dec n 0) as [->|Hpos]; [simpl; lia|].
    destruct (N.log2_spec n) as [_ Hlt]; [lia|].
    eapply N.lt_le_trans; [exact Hlt|].
    apply N.pow_le_mono_l. lia.
  - rewrite Hd, app_empty_r. tauto.
Qed.

End DecimalFacts.

(** ** The report store *)

Section StoreFacts.
Import JsString Js Store Decimal.
Context `{Platform}.

Lemma sliceLast_value (s : string) :
  allDigits s -> valueOf (sliceLast 9 s) = (valueOf s mod 10 ^ 9)%N.
Proof.
  intros Hall. unfold sliceLast.
  set (k := (String.length s - 9)%nat).
  pose proof (takeN_dropN k s) as Hsplit.
  pose proof (dropN_length k s) as Hlen.
  assert (Hd : allDigits (dropN k s)).
  { rewrite <- Hsplit in Hall. now apply allDigits_app in Hall. }
  pose proof (valueOf_bound _ Hd) as Hb.
  assert (Hv : valueOf s
               = (valueOf (takeN k s) * 10 ^ N.of_nat (String.length (dropN k s))
                  + valueOf (dropN k s))%N).
  { rewrite <- Hsplit at 1. unfold valueOf. rewrite valueAcc_app.
    now rewrite valueAcc_shift. }
  destruct (le_lt_dec (String.length s) 9) as [Hshort|Hlong].
  - assert (k = O) as Hk by (subst k; lia).
    rewrite Hk in *. cbn [dropN] in *.
    symmetry. apply N.mod_small.
    eapply N.lt_le_trans; [exact Hb|].
    apply N.pow_le_mono_r; lia.
  - assert (String.length (dropN k s) = 9%nat) as H9 by (subst k; lia).
    rewrite H9 in *. change (N.of_nat 9) with 9%N in *.
    rewrite Hv. rewrite N.add_comm, N.Div0.mod_add.
    symmetry. now apply N.mod_small.
Qed.

(** Two ids agree only when the clock readings agree in their last nine
    decimal digits. *)
Lemma reportId_congruent (t1 t2 : Z) :
  (0 <= t1)%Z -> (0 <= t2)%Z -> reportId t1 = reportId t2 ->
  (t1 mod 10 ^ 9 = t2 mod 10 ^ 9)%Z.
Proof.
  intros H1 H2 Heq. unfold reportId in Heq.
  apply (inj (String.app "REP")) in Heq.
  assert (Hdec : forall t, (0 <= t)%Z -> decimal t = decimalN (Z.to_N t)).
  { intros [|p|p] Ht; try reflexivity. lia. }
  rewrite (Hdec _ H1), (Hdec _ H2) in Heq.
  apply (f_equal valueOf) in Heq.
  destruct (decimalN_spec (Z.to_N t1)) as [Ha1 Hv1].
  destruct (decimalN_spec (Z.to_N t2)) as [Ha2 Hv2].
  rewrite !sliceLast_value, Hv1, Hv2 in Heq by assumption.
  apply (f_equal Z.of_N) in Heq.
  rewrite !N2Z.inj_mod, !Z2N.id in Heq by assumption.
  exact Heq.
Qed.

Lemma reportId_nonempty (t : Z) : reportId t <> "".
Proof. unfold reportId. rewrite !app_cons. discriminate. Qed.

Lemma persistReports_reports (ok : bool) (s : store) :
  reports (persistReports ok s) = reports s.
Proof. now destruct ok. Qed.

Lemma saveReport_reports d now created ok (s : store) :
  reports (fst (saveReport d now created ok s))
  = take 1000 (snd (saveReport d now created ok s) :: reports s).
Proof.
  unfold saveReport. cbn [fst snd]. rewrite persistReports_reports. cbn [reports].
  destruct (Nat.ltb_spec 1000 (length (mkReport d (reportId now) created None :: reports s)))
    as [Hlong|Hshort]; [reflexivity|].
  symmetry. now apply take_ge.
Qed.

Lemma saveReport_id d now created ok (s : store) :
  id (snd (saveReport d now created ok s)) = reportId now.
Proof. reflexivity. Qed.

Lemma saveAll_cons (c : creation) (cs : list creation) (s : store) :
  saveAll (c :: cs) s
  = (fst (saveAll cs (fst (saveReport (draftOf c) (idClock c) (stampClock c) (diskOk c) s))),
     snd (saveReport (draftOf c) (idClock c) (stampClock c) (diskOk c) s)
     :: snd (saveAll cs (fst (saveReport (draftOf c) (idClock c) (stampClock c) (diskOk c) s)))).
Proof.
  cbn [saveAll].
  destruct (saveReport (draftOf c) (idClock c) (stampClock c) (diskOk c) s) as [s1 r].
  cbn [fst snd]. now destruct (saveAll cs s1).
Qed.

Lemma saveAll_ids (cs : list creation) (s : store) :
  id <$> snd (saveAll cs s) = reportId <$> (idClock <$> cs).
Proof.
  revert s; induction cs as [|c cs IH]; intros s; [reflexivity|].
  rewrite saveAll_cons. cbn [snd]. rewrite !fmap_cons. now rewrite IH.
Qed.

Lemma take_app_take {A : Type} (n : nat) (a b : list A) :
  take n (a ++ take n b) = take n (a ++ b).
Proof.
  rewrite !take_app, take_take. f_equal. f_equal. lia.
Qed.

Lemma saveAll_reports (c : creation) (cs : list creation) (s : store) :
  reports (fst (saveAll (c :: cs) s))
  = take 1000 (reverse (snd (saveAll (c :: cs) s)) ++ reports s).
Proof.
  revert c s; induction cs as [|c' cs IH]; intros c s.
  - rewrite saveAll_cons. cbn [saveAll fst snd]. apply saveReport_reports.
  - rewrite saveAll_cons. cbn [fst snd]. rewrite IH.
    rewrite saveReport_reports, take_app_take.
    rewrite reverse_cons, <- app_assoc. reflexivity.
Qed.

(** C3 (amended): every id that [saveReport] assigns is a non-empty
    string, "REP" followed by the last nine decimal digits of the clock
    reading; over any run of creates whose clock readings are pairwise
    different (strictly increasing, say) and lie within a window of less
    than 10^9 ms, the ids are pairwise distinct. *)
Theorem report_ids_distinct (cs : list creation) (s : store) (t0 : Z) :
  (0 <= t0)%Z ->
  Forall (fun c => (t0 <= idClock c < t0 + 10 ^ 9)%Z) cs ->
  NoDup (idClock <$> cs) ->
  length (snd (saveAll cs s)) = length cs /\
  Forall (fun r => id r <> "") (snd (saveAll cs s)) /\
  id <$> snd (saveAll cs s) = (fun c => "REP" ++ sliceLast 9 (decimal (idClock c))) <$> cs /\
  NoDup (id <$> snd (saveAll cs s)).
Proof.
  intros Ht0 Hwin Hnd.
  pose proof (saveAll_ids cs s) as Hids.
  split; [|split; [|split]].
  - apply (f_equal length) in Hids. now rewrite !length_fmap in Hids.
  - apply Forall_forall. intros r Hr Hempty.
    assert (Hin : id r ∈ id <$> snd (saveAll cs s)) by (apply list_elem_of_fmap; eauto).
    rewrite Hids in Hin. apply list_elem_of_fmap in Hin as (t & Ht & _).
    rewrite Hempty in Ht. symmetry in Ht. now apply reportId_nonempty in Ht.
  - rewrite Hids, <- list_fmap_compose. reflexivity.
  - rewrite Hids. apply NoDup_fmap_2_strong; [|exact Hnd].
    intros t1 t2 H1 H2 Heq.
    apply list_elem_of_fmap in H1 as (c1 & -> & Hc1).
    apply list_elem_of_fmap in H2 as (c2 & -> & Hc2).
    rewrite Forall_forall in Hwin.
    pose proof (Hwin _ Hc1) as Hw1. pose proof (Hwin _ Hc2) as Hw2.
    apply reportId_congruent in Heq; [|lia|lia].
    rewrite (Z.div_mod (idClock c1) (10 ^ 9)), (Z.div_mod (idClock c2) (10 ^ 9)) by lia.
    rewrite Heq. f_equal. f_equal.
    assert (Hq : forall a b : Z, (a mod 10 ^ 9 = b mod 10 ^ 9 -> a <= b < a + 10 ^ 9 ->
                                  a / 10 ^ 9 = b / 10 ^ 9)%Z).
    { intros a b Hm Hab.
      pose proof (Z.div_mod a (10 ^ 9)) as Ha. pose proof (Z.div_mod b (10 ^ 9)) as Hb.
      pose proof (Z.mod_pos_bound a (10 ^ 9)) as Hpa.
      pose proof (Z.mod_pos_bound b (10 ^ 9)) as Hpb. nia. }
    destruct (Z.le_ge_cases (idClock c1) (idClock c2)).
    + apply Hq; [exact Heq | lia].
    + symmetry. apply Hq; [now symmetry | lia].
Qed.

(** C4: after any non-empty run of creates, from whatever the store held
    before, [reports] is the newest 1000 of the created reports (newest
    first) followed by the old content: a create puts its report at the
    head, the list handed out by the listing route has at most 1000
    entries, and what was cut off is a suffix, that is the oldest
    entries. *)
Theorem store_bounded_newest_first (c : creation) (cs : list creation) (s : store) :
  reports (fst (saveAll (c :: cs) s))
  = take 1000 (reverse (snd (saveAll (c :: cs) s)) ++ reports s) /\
  head (reports (fst (saveAll (c :: cs) s))) = last (snd (saveAll (c :: cs) s)) /\
  length (reports (fst (saveAll (c :: cs) s))) <= 1000 /\
  apiReports (fst (saveAll (c :: cs) s))
  = (length (reports (fst (saveAll (c :: cs) s))), reports (fst (saveAll (c :: cs) s))) /\
  exists evicted : list report,
    (reverse (snd (saveAll (c :: cs) s)) ++ reports s
     = reports (fst (saveAll (c :: cs) s)) ++ evicted)%list.
Proof.
  pose proof (saveAll_reports c cs s) as Hr.
  split; [exact Hr|]. split; [|split; [|split]].
  - rewrite Hr. rewrite <- head_reverse.
    destruct (reverse (snd (saveAll (c :: cs) s))) as [|x l] eqn:Hrev; [|reflexivity].
    apply (f_equal length) in Hrev. rewrite length_reverse, saveAll_cons in Hrev.
    discriminate.
  - rewrite Hr, length_take. lia.
  - reflexivity.
  - exists (drop 1000 (reverse (snd (saveAll (c :: cs) s)) ++ reports s)).
    rewrite Hr. now rewrite take_drop.
Qed.

End StoreFacts.

(** ** The geocoder *)

Section GeocoderFacts.
Import JsString Js Json Geocoder GeocoderSpec LookupSpec.
Context `{Platform}.

Lemma geoEnter_reaches_lookup (place : string) (now : Z) (g : geo) :
  (forall v, geoEnter place now g <> Returned v) ->
  guardPasses place /\ cacheGet (geoCache g) place = None.
Proof.
  unfold geoEnter, guardPasses. intros Hne.
  destruct (negb (JsString.truthy place) || String.eqb place "Unknown location").
  - now contradiction (Hne None).
  - split; [reflexivity|].
    destruct (cacheGet (geoCache g) place) as [v|]; [|reflexivity].
    now contradiction (Hne (Some v)).
Qed.

Lemma cacheGet_none (cache : gmap string coords) (place : string) :
  cacheGet cache place = None -> cache !! place = None.
Proof. unfold cacheGet. now destruct (cache !! place). Qed.


Lemma geoEnter_stored (place : string) (now : Z) (g : geo) (c : coords) :
  guardPasses place -> geoCache g !! place = Some c ->
  geoEnter place now g = Returned (Some (Coords c)).
Proof.
  unfold geoEnter, guardPasses, cacheGet. now intros -> ->.
Qed.

Lemma geoEnter_stored_returns (place : string) (now : Z) (g : geo) (c : coords) :
  geoCache g !! place = Some c -> exists v, geoEnter place now g = Returned v.
Proof.
  unfold geoEnter, cacheGet. intros ->.
  destruct (negb (JsString.truthy place) || String.eqb place "Unknown location"); eauto.
Qed.



Lemma geocodeLocation_lookup (place : string) (now1 now2 : Z) (r : reply) (g : geo) :
  (forall v, geoEnter place now1 g <> Returned v) ->
  geocodeLocation place now1 now2 r g = geoSettle place r (geoDispatch place now2 g).
Proof.
  unfold geocodeLocation. intros Hne.
  destruct (geoEnter place now1 g) as [v| |]; [now contradiction (Hne v)| |]; reflexivity.
Qed.






(** *** The cache while calls overlap *)

Lemma geoEnter_suspends_guarded (place : string) (now : Z) (g : geo) :
  (forall v, geoEnter place now g <> Returned v) -> guardPasses place.
Proof. intros Hne. now destruct (geoEnter_reaches_lookup _ _ _ Hne). Qed.

Lemma geoSettle_cache (place : string) (r : reply) (g : geo) :
  geoCache (fst (geoSettle place r g)) = geoCache g \/
  exists c, geoCache (fst (geoSettle place r g)) = <[place := c]> (geoCache g).
Proof.
  unfold geoSettle. destruct (readCoords r) as [[c|]|e]; cbn; eauto.
Qed.

Lemma step_guarded (s s' : system) (l : label) :
  step s l s' -> guarded s -> guarded s'.
Proof.
  unfold guarded.
  intros Hstep [Hcache Hpool]; inversion Hstep; subst; cbn [fst snd geoDispatch geoCache] in *.
  - auto.
  - split; [exact Hcache|]. apply Forall_app. split; [exact Hpool|].
    apply Forall_singleton. cbn. eapply geoEnter_suspends_guarded. intros v. now rewrite H0.
  - split; [exact Hcache|]. apply Forall_app. split; [exact Hpool|].
    apply Forall_singleton. cbn. eapply geoEnter_suspends_guarded. intros v. now rewrite H0.
  - split; [exact Hcache|].
    apply Forall_app in Hpool as [Hpre Hpost]. apply Forall_cons in Hpost as [Hq Hpost].
    apply Forall_app. split; [exact Hpre|]. apply Forall_cons. split; assumption.
  - apply Forall_app in Hpool as [Hpre Hpost]. apply Forall_cons in Hpost as [Hq Hpost].
    split; [|apply Forall_app; split; assumption].
    intros q c Hqc.
    destruct (geoSettle_cache place r g) as [Heq | [c' Heq]]; rewrite Heq in Hqc.
    + eauto.
    + destruct (decide (place = q)) as [<-|Hne]; [exact Hq|].
      rewrite lookup_insert_ne in Hqc by exact Hne. eauto.
Qed.

Lemma steps_guarded (s s' : system) : steps s s' -> guarded s -> guarded s'.
Proof. induction 1; eauto using step_guarded. Qed.

Lemma initial_guarded : guarded initial.
Proof.
  split; [|constructor]. intros place c Hl. cbn in Hl. now rewrite lookup_empty in Hl.
Qed.



End GeocoderFacts.

(** ** The webhook handler *)

Section WebhookFacts.
Import JsString Js Store Webhook.
Context `{Platform}.


(** What a request that is answered 200 has done. *)
Lemma incomingSms_accepted (cfg : config) (e : env) (req : request) (w : world) :
  statusCode (snd (incomingSms cfg e req w)) = 200 ->
  exists ci parsed g coords s1 r s2 files r',
    Channel.getChannelInfo (field req "From") = Ok ci /\
    Parser.parseHazardReport (or (field req "Body") (VString "")) = Ok parsed /\
    Geocoder.geocodeLocation (Parser.location parsed) (geoClock1 e) (geoClock2 e)
                             (geoReply e) (geocoder w) = (g, coords) /\
    saveReport (reportData req ci parsed coords) (saveClock e) (createdClock e)
               (saveDiskOk e) (store w) = (s1, r) /\
    attachMedia cfg e req r s1 (mediaFiles w) = (s2, files, r') /\
    fst (incomingSms cfg e req w)
    = mkWorld g s2 files (emitted w ++ [r'])%list
              (sendConfirmationMessage cfg (field req "From") r' (Channel.channel ci)
                                       (outbox w)).
Proof.
  unfold incomingSms.
  destruct (negb (validateTwilioRequest cfg req)); [discriminate|].
  destruct (Channel.getChannelInfo (field req "From")) as [ci|err]; [|discriminate].
  cbn [bind].
  destruct (Parser.parseHazardReport (or (field req "Body") (VString ""))) as [parsed|err];
    [|discriminate].
  cbn [bind].
  destruct (Geocoder.geocodeLocation _ _ _ _ _) as [g coords] eqn:Hgeo.
  destruct (saveReport _ _ _ _ _) as [s1 r] eqn:Hsave.
  destruct (attachMedia _ _ _ _ _ _) as [[s2 files] r'] eqn:Hmedia.
  intros _. exists ci, parsed, g, coords, s1, r, s2, files, r'.
  repeat split; try reflexivity; assumption.
Qed.

Lemma findIndex_head (f : report -> bool) (r : report) (l : list report) :
  f r = true -> findIndex f (r :: l) = Some O.
Proof. intros Hf. cbn. now rewrite Hf. Qed.

(** The media branch changes nothing but the [media] field of the report
    at the head of the store. *)
Lemma attachMedia_head (cfg : config) (e : env) (req : request) (r : report)
      (s : Store.store) (files : list (string * N)) (rest : list report) :
  reports s = r :: rest ->
  exists info,
    snd (attachMedia cfg e req r s files) = mkReport (data r) (id r) (createdAt r) info /\
    reports (fst (fst (attachMedia cfg e req r s files)))
    = snd (attachMedia cfg e req r s files) :: rest.
Proof.
  intros Hs. unfold attachMedia.
  destruct (truthy (mediaDeclared (field req "NumMedia")) && truthy (field req "MediaUrl0")).
  - destruct (downloadMedia _ _ _ _ _ _) as [files' [info|]].
    + exists (Some info). rewrite Hs. cbn [reports list_insert insert].
      rewrite findIndex_head by (cbn; apply String.eqb_refl).
      cbn [fst snd]. rewrite persistReports_reports. cbn.
      split; reflexivity.
    + exists (media r). cbn [fst snd]. destruct r; cbn. auto.
  - exists (media r). cbn [fst snd]. destruct r; cbn. auto.
Qed.

(** The head of the store after an accepted request is the report that
    was created, with the fields of [reportData]; the reports behind it
    are the ones the store held, cut to the cap. *)
Lemma accepted_report (cfg : config) (e : env) (req : request) (w : world) :
  statusCode (snd (incomingSms cfg e req w)) = 200 ->
  exists ci parsed coords info,
    Channel.getChannelInfo (field req "From") = Ok ci /\
    Parser.parseHazardReport (or (field req "Body") (VString "")) = Ok parsed /\
    let r := mkReport (reportData req ci parsed coords) (reportId (saveClock e))
                      (createdClock e) info in
    reports (store (fst (incomingSms cfg e req w)))
    = r :: take 999 (reports (store w)) /\
    last (emitted (fst (incomingSms cfg e req w))) = Some r.
Proof.
  intros Hok.
  destruct (incomingSms_accepted _ _ _ _ Hok)
    as (ci & parsed & g & coords & s1 & r & s2 & files & r' & Hci & Hp & Hg & Hsave & Hmedia & Hw).
  pose proof (saveReport_reports (reportData req ci parsed coords) (saveClock e)
                                 (createdClock e) (saveDiskOk e) (store w)) as Hrs.
  rewrite Hsave in Hrs. cbn [fst snd] in Hrs. change (take 1000 (r :: ?l)) with (r :: take 999 l) in Hrs.
  destruct (attachMedia_head cfg e req r s1 (mediaFiles w) _ Hrs) as (info & Hr' & Hreports).
  rewrite Hmedia in Hr', Hreports. cbn [fst snd] in Hr', Hreports.
  assert (Hr : r = mkReport (reportData req ci parsed coords) (reportId (saveClock e))
                            (createdClock e) None).
  { unfold saveReport in Hsave. now injection Hsave as _ <-. }
  exists ci, parsed, coords, info. split; [exact Hci|]. split; [exact Hp|].
  rewrite Hw. cbn [store emitted]. rewrite Hreports, Hr'. rewrite Hr. cbn [data id createdAt].
  split; [reflexivity|]. apply last_snoc.
Qed.

(** C8 (amended): for every request that is answered 200, the report
    that is created, stored at the head of [reports] and published has as
    [message] the body as received when that is a non-empty string, and
    the placeholder "[Media message]" when the body is empty or absent;
    the handler leaves the [message] of every report already in the store
    as it was. *)
Theorem report_message_from_body (cfg : config) (e : env) (req : request) (w : world) :
  statusCode (snd (incomingSms cfg e req w)) = 200 ->
  exists r,
    reports (store (fst (incomingSms cfg e req w))) = r :: take 999 (reports (store w)) /\
    last (emitted (fst (incomingSms cfg e req w))) = Some r /\
    message (data r)
    = match field req "Body" with
      | VString (String c s) => VString (String c s)
      | _ => VString "[Media message]"
      end /\
    (fun x => message (data x)) <$> reports (store (fst (incomingSms cfg e req w)))
    = message (data r) :: take 999 ((fun x => message (data x)) <$> reports (store w)).
Proof.
  intros Hok.
  destruct (accepted_report _ _ _ _ Hok) as (ci & parsed & coords & info & _ & Hp & Hr & Hlast).
  eexists. split; [exact Hr|]. split; [exact Hlast|]. split.
  - cbn [data message reportData].
    destruct (field req "Body") as [|[|c s]|[|]|l]; try reflexivity; discriminate.
  - rewrite Hr, fmap_cons, fmap_take. reflexivity.
Qed.

(** C9 (amended): for every request that is answered 200, the created
    report's [hasMedia] is the value of [NumMedia && parseInt(NumMedia) >
    0]: the boolean "NumMedia parses to a number greater than zero" when
    [NumMedia] is a non-empty string, and [NumMedia] itself (absent, or
    the empty string) otherwise; it is truthy exactly when [NumMedia] is
    present, non-empty and parses to a number greater than zero. *)
Theorem report_hasMedia_from_NumMedia (cfg : config) (e : env) (req : request) (w : world) :
  statusCode (snd (incomingSms cfg e req w)) = 200 ->
  exists r,
    reports (store (fst (incomingSms cfg e req w))) = r :: take 999 (reports (store w)) /\
    hasMedia (data r)
    = (if truthy (field req "NumMedia")
       then VBool (positive (parseInt (field req "NumMedia")))
       else field req "NumMedia") /\
    (forall s, field req "NumMedia" = VString s -> s <> "" ->
               hasMedia (data r) = VBool (positive (parseIntString s))) /\
    (field req "NumMedia" = VUndefined -> hasMedia (data r) = VUndefined) /\
    (field req "NumMedia" = VString "" -> hasMedia (data r) = VString "") /\
    (truthy (hasMedia (data r)) = true <->
     truthy (field req "NumMedia") = true /\
     exists n, parseInt (field req "NumMedia") = Some n /\ (0 < n)%Z).
Proof.
  intros Hok.
  destruct (accepted_report _ _ _ _ Hok) as (ci & parsed & coords & info & _ & _ & Hr & _).
  eexists. split; [exact Hr|]. cbn [data hasMedia reportData]. unfold mediaDeclared.
  split; [reflexivity|]. split; [|split; [|split]].
  - intros s -> Hs. destruct s; [congruence|reflexivity].
  - now intros ->.
  - now intros ->.
  - destruct (truthy (field req "NumMedia")) eqn:Ht.
    + cbn [truthy]. unfold positive.
      destruct (parseInt (field req "NumMedia")) as [n|].
      * rewrite Z.ltb_lt. split.
        -- intros Hn. split; [reflexivity|]. exists n. auto.
        -- intros [_ [m [Hm Hpos]]]. now injection Hm as ->.
      * split; [discriminate|]. intros [_ [m [Hm _]]]. discriminate.
    + rewrite Ht. split; [discriminate|]. intros [Hf _]. discriminate.
Qed.

End WebhookFacts.

(** ** The concrete runs *)

Section RunFacts.
Import JsString Js Json Geocoder GeocoderSpec LookupSpec Store Webhook Runs.
#[local] Existing Instance plainPlatform.

(** C3, as stated, fails: 1000 creates within one millisecond all get
    the same id. *)
Lemma report_ids_collide_within_a_millisecond :
  length sameMillisecond = 1000 /\
  ~ NoDup (id <$> snd (saveAll sameMillisecond (mkStore [] []))).
Proof.
  split; [reflexivity|].
  rewrite saveAll_ids. unfold sameMillisecond.
  change 1000 with (S (S 998)). cbn [replicate]. rewrite !fmap_cons.
  intros Hnd. apply NoDup_cons in Hnd as [Hnotin _]. apply Hnotin. left.
Qed.

Lemma report_ids_distinct_witness :
  ((0 <= t0)%Z /\
   Forall (fun c => (t0 <= idClock c < t0 + 10 ^ 9)%Z) threeCreates /\
   NoDup (idClock <$> threeCreates)) /\
  length (snd (saveAll threeCreates (mkStore [] []))) = 3 /\
  Forall (fun r => id r <> "") (snd (saveAll threeCreates (mkStore [] []))) /\
  id <$> snd (saveAll threeCreates (mkStore [] []))
  = (fun c => "REP" ++ sliceLast 9 (decimal (idClock c))) <$> threeCreates /\
  NoDup (id <$> snd (saveAll threeCreates (mkStore [] []))).
Proof.
  assert (H0 : (0 <= t0)%Z) by (unfold t0; lia).
  assert (Hwin : Forall (fun c => (t0 <= idClock c < t0 + 10 ^ 9)%Z) threeCreates).
  { unfold threeCreates, t0. repeat constructor; cbn; lia. }
  assert (Hnd : NoDup (idClock <$> threeCreates)).
  { apply (bool_decide_unpack _). vm_compute. exact I. }
  split; [auto|].
  exact (report_ids_distinct threeCreates (mkStore [] []) t0 H0 Hwin Hnd).
Defined.


Lemma steps_to_afterFirst : steps initial afterFirst.
Proof.
  eapply steps_step.
  { exact (step_dispatch place t0 t0 geo0 [] eq_refl). }
  eapply steps_step.
  { exact (step_sleep place (t0 + 100) (geoDispatch place t0 geo0) [Fetching place]
                      1000 eq_refl). }
  eapply steps_step; [|apply steps_refl].
  exact (step_settle place chennai (geoDispatch place t0 geo0) [] [Sleeping place]).
Qed.

Lemma steps_to_afterSecond : steps afterFirst afterSecond.
Proof.
  eapply steps_step.
  { exact (step_wake place (t0 + 1100) (fst afterFirst) [] []). }
  eapply steps_step; [|apply steps_refl].
  exact (step_settle place elsewhere (geoDispatch place (t0 + 1100) (fst afterFirst)) [] []).
Qed.





(** C8, as stated, fails: an empty body is accepted and stored as the
    placeholder, not as the empty string. *)
Lemma empty_body_stored_as_placeholder :
  statusCode (snd (incomingSms cfg quiet emptyBody world0)) = 200 /\
  field emptyBody "Body" = VString "" /\
  (fun r => message (data r))
    <$> head (reports (store (fst (incomingSms cfg quiet emptyBody world0))))
  = Some (VString "[Media message]") /\
  VString "[Media message]" <> field emptyBody "Body".
Proof. vm_compute. repeat split; discriminate. Qed.

Lemma report_message_from_body_witness :
  exists r,
    reports (store (fst (incomingSms cfg quiet noNumMedia world0)))
    = r :: take 999 (reports (store world0)) /\
    last (emitted (fst (incomingSms cfg quiet noNumMedia world0))) = Some r /\
    message (data r) = VString "storm warning at Port X".
Proof.
  destruct (report_message_from_body cfg quiet noNumMedia world0) as (r & Hr & Hl & Hm & _).
  - vm_compute. reflexivity.
  - exists r. split; [exact Hr|]. split; [exact Hl|]. exact Hm.
Defined.

(** C9, as stated, fails: without [NumMedia] the stored [hasMedia] is
    absent, not a boolean. *)
Lemma hasMedia_absent_without_NumMedia :
  statusCode (snd (incomingSms cfg quiet noNumMedia world0)) = 200 /\
  field noNumMedia "NumMedia" = VUndefined /\
  (fun r => hasMedia (data r))
    <$> head (reports (store (fst (incomingSms cfg quiet noNumMedia world0))))
  = Some VUndefined /\
  forall b, VUndefined <> VBool b.
Proof. vm_compute. repeat split; discriminate. Qed.

Lemma report_hasMedia_from_NumMedia_witness :
  exists r,
    reports (store (fst (incomingSms cfg quiet emptyBody world0)))
    = r :: take 999 (reports (store world0)) /\
    hasMedia (data r) = VBool true.
Proof.
  destruct (report_hasMedia_from_NumMedia cfg quiet emptyBody world0)
    as (r & Hr & Hm & _).
  - vm_compute. reflexivity.
  - exists r. split; [exact Hr|]. exact Hm.
Defined.


End RunFacts.

(** * Further properties *)

(** ** The channel detector on arbitrary senders *)

Section MoreChannelFacts.
Import JsString Js Channel MoreSpec.

(** The detector either returns, on a sender that is falsy or a string, or
    throws, on a truthy sender that is not a string. *)
Lemma getChannelInfo_cases (v : value) :
  (exists info, getChannelInfo v = Ok info /\ ~ truthyNonString v) \/
  (exists err, getChannelInfo v = Throw err /\ truthyNonString v).
Proof.
  unfold truthyNonString.
  destruct v as [|s|[|]|l].
  - left. eexists. split; [reflexivity|]. intros [? | [? ?]]; discriminate.
  - left. unfold getChannelInfo. destruct s as [|c s].
    + eexists. split; [reflexivity|]. intros [? | [? ?]]; discriminate.
    + cbn [truthy JsString.truthy callStartsWith bind].
      destruct (startsWith (String c s) "whatsapp:");
        eexists; (split; [reflexivity|]); intros [? | [? ?]]; discriminate.
  - right. eexists. split; [reflexivity|]. now left.
  - left. eexists. split; [reflexivity|]. intros [? | [? ?]]; discriminate.
  - right. eexists. split; [reflexivity|]. right. eauto.
Qed.

(** X1: for every sender that is a string the detector answers; the
    channel is "whatsapp" exactly when the address starts with
    "whatsapp:", and then the prefix put back in front of the clean number
    gives the address; otherwise the channel is "sms" and the clean number
    is the address unchanged. *)
Theorem channel_of_string (s : string) :
  exists info,
    getChannelInfo (VString s) = Ok info /\
    (channel info = "whatsapp" <-> startsWith s "whatsapp:" = true) /\
    (channel info = "sms" <-> startsWith s "whatsapp:" = false) /\
    (startsWith s "whatsapp:" = true ->
     exists number, cleanNumber info = VString number /\ s = "whatsapp:" ++ number) /\
    (startsWith s "whatsapp:" = false -> cleanNumber info = VString s).
Proof.
  destruct s as [|c s].
  - eexists. split; [reflexivity|]. cbn. repeat split; try discriminate; auto.
  - unfold getChannelInfo. cbn [truthy JsString.truthy callStartsWith bind].
    destruct (startsWith (String c s) "whatsapp:") eqn:Hp.
    + cbn [truthy callReplace bind]. eexists. split; [reflexivity|].
      cbn [channel cleanNumber].
      apply startsWith_spec in Hp as [rest Hrest].
      repeat split; try discriminate; auto.
      intros _. exists rest. split; [|exact Hrest].
      rewrite Hrest. reflexivity.
    + cbn [truthy bind]. eexists. split; [reflexivity|].
      cbn [channel cleanNumber]. repeat split; try discriminate; auto.
Qed.

(** X2: the detector throws exactly on a truthy sender that is not a
    string (the list of a repeated form key, or [true]); on every other
    sender it returns. *)
Theorem channel_throws_iff (v : value) :
  (exists err, getChannelInfo v = Throw err) <-> truthyNonString v.
Proof.
  destruct (getChannelInfo_cases v) as [(info & Hok & Hgood) | (err & Hthrow & Hbad)].
  - split; [|contradiction]. intros [err Herr]. congruence.
  - split; [auto|]. intros _. eauto.
Qed.

End MoreChannelFacts.

(** ** The hazard parser: keywords and the shape of the location *)

Section MoreParserFacts.
Import JsString Js Regex Parser ParserSpec MoreSpec.

Lemma includes_trans (s w v : string) :
  includes s w = true -> includes w v = true -> includes s v = true.
Proof.
  rewrite !includes_spec. intros (p1 & q1 & ->) (p2 & q2 & ->).
  exists (p1 ++ p2), (q2 ++ q1). now rewrite !app_assoc_string.
Qed.

Lemma someIncluded_core (msg : string) :
  someIncluded msg ["flood"; "flooding"; "inundation"]
  = someIncluded msg ["flood"; "inundation"] /\
  someIncluded msg ["tsunami"; "wave surge"; "surge"]
  = someIncluded msg ["tsunami"; "surge"] /\
  someIncluded msg ["wave"; "waves"; "high waves"] = someIncluded msg ["wave"].
Proof.
  unfold someIncluded. cbn [existsb].
  pose proof (fun H => includes_trans msg "flooding" "flood" H eq_refl) as H1.
  pose proof (fun H => includes_trans msg "wave surge" "surge" H eq_refl) as H2.
  pose proof (fun H => includes_trans msg "waves" "wave" H eq_refl) as H3.
  pose proof (fun H => includes_trans msg "high waves" "wave" H eq_refl) as H4.
  destruct (includes msg "flood"), (includes msg "flooding"), (includes msg "inundation"),
    (includes msg "tsunami"), (includes msg "wave surge"), (includes msg "surge"),
    (includes msg "wave"), (includes msg "waves"), (includes msg "high waves");
    cbn; repeat split;
    first [ reflexivity | now (specialize (H1 eq_refl)) | now (specialize (H2 eq_refl))
          | now (specialize (H3 eq_refl)) | now (specialize (H4 eq_refl)) ].
Qed.

(** X3: the keywords "flooding", "wave surge", "waves" and "high waves"
    never decide: the hazard type of every body is the one that the table
    without them gives, and it is "waves" exactly when the case-folded
    body contains "wave" and none of flood, inundation, tsunami, surge,
    storm, cyclone, wind. *)
Theorem hazard_type_core_keywords (b : option string) :
  exists p,
    parseHazardReport (bodyValue b) = Ok p /\
    hazardType p = classify coreHazardTypes (toLowerCase (default "" b)) "other" /\
    (hazardType p = "waves" <->
     includes (toLowerCase (default "" b)) "wave" = true /\
     someIncluded (toLowerCase (default "" b))
                  ["flood"; "inundation"; "tsunami"; "surge"; "storm"; "cyclone"; "wind"]
     = false).
Proof.
  assert (Hlow : callToLowerCase (or (bodyValue b) (VString ""))
                 = Ok (toLowerCase (default "" b))).
  { destruct b as [[|c s]|]; reflexivity. }
  unfold parseHazardReport. rewrite Hlow. cbn [bind].
  eexists. split; [reflexivity|]. cbn [hazardType].
  set (msg := toLowerCase (default "" b)).
  destruct (someIncluded_core msg) as (H1 & H2 & H3).
  unfold hazardTypes, coreHazardTypes. cbn [classify]. rewrite H1, H2, H3.
  split; [reflexivity|].
  unfold someIncluded. cbn [existsb].
  destruct (includes msg "flood"), (includes msg "inundation"), (includes msg "tsunami"),
    (includes msg "surge"), (includes msg "storm"), (includes msg "cyclone"),
    (includes msg "wind"), (includes msg "wave"); cbn; split;
    first [ discriminate | reflexivity | tauto | (intros [? ?]; discriminate) | idtac ].
Qed.

Lemma noneOf_app (test : ascii -> bool) (a b : string) :
  noneOf test (a ++ b) <-> noneOf test a /\ noneOf test b.
Proof.
  induction a as [|c a IH]; [cbn; tauto|].
  rewrite app_cons. cbn [noneOf]. rewrite IH. tauto.
Qed.

Lemma isSubstring_inner (a g b msg : string) :
  isSubstring (a ++ g ++ b) msg -> isSubstring g msg.
Proof.
  intros (pre & post & ->). exists (pre ++ a), (b ++ post).
  now rewrite !app_assoc_string.
Qed.

Lemma litMatch_some (p s s' : string) :
  litMatch p s = Some s' -> exists pre, s = pre ++ s'.
Proof.
  revert s; induction p as [|a p IH]; intros s; cbn.
  - intros [= ->]. now exists "".
  - destruct s as [|c s]; [discriminate|].
    destruct (ciEq a c); [|discriminate].
    intros Hm. destruct (IH _ Hm) as [pre ->]. now exists (String c pre).
Qed.

(** What a greedy [+] hands to its continuation: the input minus a
    non-empty run of characters of the class. *)
Lemma plusK_some {R : Type} (cls : ascii -> bool) (s : string)
      (k : string -> option R) (r : R) :
  plusK cls s k = Some r ->
  exists pre rest,
    s = pre ++ rest /\ pre <> "" /\ noneOf (fun c => negb (cls c)) pre /\ k rest = Some r.
Proof.
  induction s as [|c s IH]; cbn; [discriminate|].
  destruct (cls c) eqn:Hc; [|discriminate].
  destruct (plusK cls s k) as [r'|] eqn:Hk.
  - intros [= ->]. destruct (IH eq_refl) as (pre & rest & -> & _ & Hpre & Hrest).
    exists (String c pre), rest. cbn [noneOf]. rewrite Hc.
    repeat split; try discriminate; auto.
  - intros Hrest. exists (String c ""), s. cbn [noneOf]. rewrite Hc.
    repeat split; try discriminate; auto.
Qed.

Lemma takeN_app_exact (pre rest : string) :
  takeN (String.length (pre ++ rest) - String.length rest) (pre ++ rest) = pre.
Proof.
  rewrite append_length.
  replace (String.length pre + String.length rest - String.length rest)%nat
    with (String.length pre) by lia.
  induction pre as [|c pre IH]; [now destruct rest|].
  rewrite app_cons. cbn. now rewrite IH.
Qed.

(** A match of [locationPattern] captures a non-empty piece of the input
    without comma, period or line feed. *)
Lemma locationPattern_capture (s : string) (m : option string) :
  run locationPattern s None (fun _ cap => Some cap) = Some m ->
  exists a g rest,
    s = a ++ g ++ rest /\ m = Some g /\ g <> "" /\ noneOf isDelimiter g.
Proof.
  assert (Htail : forall s1,
             plusK isSpace s1
                   (fun s2 => plusK notDelimiter s2
                      (fun s3 => Some (Some (takeN (String.length s2 - String.length s3) s2))))
             = Some m ->
             exists sp g rest, s1 = sp ++ g ++ rest /\ m = Some g /\ g <> ""
                               /\ noneOf isDelimiter g).
  { intros s1 Hs1.
    apply plusK_some in Hs1 as (sp & s2 & -> & _ & _ & Hs2).
    apply plusK_some in Hs2 as (g & s3 & -> & Hg & Hnone & Hcap).
    rewrite takeN_app_exact in Hcap. injection Hcap as <-.
    exists sp, g, s3. repeat split; auto. }
  unfold locationPattern. cbn [run].
  destruct (litMatch "at" s) as [s1|] eqn:Hat.
  - destruct (plusK isSpace s1 _) as [m1|] eqn:Hp1.
    + intros [= ->]. destruct (Htail _ Hp1) as (sp & g & rest & -> & Hm & Hg & Hn).
      apply litMatch_some in Hat as [pre ->].
      exists (pre ++ sp), g, rest. rewrite !app_assoc_string. auto.
    + destruct (litMatch "in" s) as [s2|] eqn:Hin.
      * destruct (plusK isSpace s2 _) as [m2|] eqn:Hp2.
        -- intros [= ->]. destruct (Htail _ Hp2) as (sp & g & rest & -> & Hm & Hg & Hn).
           apply litMatch_some in Hin as [pre ->].
           exists (pre ++ sp), g, rest. rewrite !app_assoc_string. auto.
        -- destruct (litMatch "near" s) as [s3|] eqn:Hnear; [|discriminate].
           intros Hp3. destruct (Htail _ Hp3) as (sp & g & rest & -> & Hm & Hg & Hn).
           apply litMatch_some in Hnear as [pre ->].
           exists (pre ++ sp), g, rest. rewrite !app_assoc_string. auto.
      * destruct (litMatch "near" s) as [s3|] eqn:Hnear; [|discriminate].
        intros Hp3. destruct (Htail _ Hp3) as (sp & g & rest & -> & Hm & Hg & Hn).
        apply litMatch_some in Hnear as [pre ->].
        exists (pre ++ sp), g, rest. rewrite !app_assoc_string. auto.
  - destruct (litMatch "in" s) as [s2|] eqn:Hin.
    + destruct (plusK isSpace s2 _) as [m2|] eqn:Hp2.
      * intros [= ->]. destruct (Htail _ Hp2) as (sp & g & rest & -> & Hm & Hg & Hn).
        apply litMatch_some in Hin as [pre ->].
        exists (pre ++ sp), g, rest. rewrite !app_assoc_string. auto.
      * destruct (litMatch "near" s) as [s3|] eqn:Hnear; [|discriminate].
        intros Hp3. destruct (Htail _ Hp3) as (sp & g & rest & -> & Hm & Hg & Hn).
        apply litMatch_some in Hnear as [pre ->].
        exists (pre ++ sp), g, rest. rewrite !app_assoc_string. auto.
    + destruct (litMatch "near" s) as [s3|] eqn:Hnear; [|discriminate].
      intros Hp3. destruct (Htail _ Hp3) as (sp & g & rest & -> & Hm & Hg & Hn).
      apply litMatch_some in Hnear as [pre ->].
      exists (pre ++ sp), g, rest. rewrite !app_assoc_string. auto.
Qed.

Lemma exec_some (r : regex) (s : string) (m : option string) :
  exec r s = Some m ->
  exists skipped s1, s = skipped ++ s1 /\ run r s1 None (fun _ cap => Some cap) = Some m.
Proof.
  induction s as [|c s IH]; cbn [exec].
  - destruct (run r "" None _) as [m'|] eqn:Hr; [|discriminate].
    intros [= ->]. now exists "", "".
  - destruct (run r (String c s) None _) as [m'|] eqn:Hr.
    + intros [= ->]. now exists "", (String c s).
    + intros He. destruct (IH He) as (sk & s1 & -> & Hrun).
      now exists (String c sk), s1.
Qed.

Lemma trimStart_suffix (s : string) : exists pre, s = pre ++ trimStart s.
Proof.
  induction s as [|c s [pre IH]]; cbn; [now exists ""|].
  destruct (isSpace c); [|now exists ""].
  exists (String c pre). now rewrite app_cons, <- IH.
Qed.

Lemma trimEnd_prefix (s : string) : exists post, s = trimEnd s ++ post.
Proof.
  induction s as [|c s [post IH]]; cbn; [now exists ""|].
  destruct (trimEnd s) as [|d t] eqn:Ht.
  - destruct (isSpace c).
    + now exists (String c s).
    + exists s. reflexivity.
  - exists post. now rewrite app_cons, <- IH.
Qed.

Lemma trimStart_shape (s : string) :
  trimStart s = "" \/ exists c t, trimStart s = String c t /\ isSpace c = false.
Proof.
  induction s as [|c s IH]; cbn; [now left|].
  destruct (isSpace c) eqn:Hc; [exact IH|]. right. eauto.
Qed.

Lemma trimEnd_idempotent (s : string) : trimEnd (trimEnd s) = trimEnd s.
Proof.
  induction s as [|c s IH]; [reflexivity|]. cbn [trimEnd].
  destruct (trimEnd s) as [|d t] eqn:Ht.
  - destruct (isSpace c) eqn:Hc; [reflexivity|]. cbn. now rewrite Hc.
  - cbn [trimEnd]. cbn [trimEnd] in IH. now rewrite IH.
Qed.

Lemma trimEnd_keeps_head (c : ascii) (s : string) :
  isSpace c = false -> exists t, trimEnd (String c s) = String c t.
Proof.
  intros Hc. cbn [trimEnd]. destruct (trimEnd s); [rewrite Hc|]; eauto.
Qed.

(** Trimming a trimmed string changes nothing. *)
Lemma trim_idempotent (s : string) : trim (trim s) = trim s.
Proof.
  unfold trim.
  destruct (trimStart_shape s) as [-> | (c & t & -> & Hc)]; [reflexivity|].
  destruct (trimEnd_keeps_head c t Hc) as [t' Ht']. rewrite Ht'.
  cbn [trimStart]. rewrite Hc. rewrite <- Ht'. apply trimEnd_idempotent.
Qed.

Lemma trim_substring (s : string) : exists pre post, s = pre ++ trim s ++ post.
Proof.
  unfold trim. destruct (trimStart_suffix s) as [pre Hpre].
  destruct (trimEnd_prefix (trimStart s)) as [post Hpost].
  exists pre, post. now rewrite <- Hpost.
Qed.

(** X4: for every body the location is either the literal "Unknown
    location" or a piece of the case-folded body that holds no comma, no
    period and no line feed; in both cases it carries no white space at
    either end. *)
Theorem location_shape (b : option string) :
  exists p,
    parseHazardReport (bodyValue b) = Ok p /\
    (location p = "Unknown location" \/
     noneOf isDelimiter (location p) /\
     isSubstring (location p) (toLowerCase (default "" b))) /\
    trim (location p) = location p.
Proof.
  assert (Hlow : callToLowerCase (or (bodyValue b) (VString ""))
                 = Ok (toLowerCase (default "" b))).
  { destruct b as [[|c s]|]; reflexivity. }
  unfold parseHazardReport. rewrite Hlow. cbn [bind].
  eexists. split; [reflexivity|]. cbn [location].
  set (msg := toLowerCase (default "" b)).
  destruct (exec locationPattern msg) as [m|] eqn:He.
  - apply exec_some in He as (sk & s1 & Hmsg & Hrun).
    apply locationPattern_capture in Hrun as (a & g & rest & -> & -> & Hg & Hnone).
    cbn [default]. split; [|apply trim_idempotent]. right.
    destruct (trim_substring g) as (pre & post & Hsplit).
    split.
    + rewrite Hsplit in Hnone. apply noneOf_app in Hnone as [_ Hnone].
      now apply noneOf_app in Hnone as [Hnone _].
    + assert (Hin : isSubstring g msg).
      { exists (sk ++ a), rest. rewrite Hmsg. now rewrite !app_assoc_string. }
      rewrite Hsplit in Hin. exact (isSubstring_inner _ _ _ _ Hin).
  - split; [now left | reflexivity].
Qed.

End MoreParserFacts.

(** ** Report ids and the media fetcher *)

Section MoreStoreFacts.
Import JsString Js Store Webhook Decimal.
Context `{Platform}.

(** X5: for a clock reading of at least 10^8 ms (any time after the
    second day of 1970) the id has exactly twelve characters: "REP"
    followed by nine decimal digits, which spell the reading modulo
    10^9. *)
Theorem reportId_format (t : Z) :
  (10 ^ 8 <= t)%Z ->
  String.length (reportId t) = 12 /\
  exists digits,
    reportId t = "REP" ++ digits /\
    String.length digits = 9 /\
    allDigits digits /\
    valueOf digits = (Z.to_N t mod 10 ^ 9)%N.
Proof.
  intros Ht. unfold reportId.
  assert (Hdec : decimal t = decimalN (Z.to_N t)) by (destruct t; try reflexivity; lia).
  rewrite Hdec. set (n := Z.to_N t).
  destruct (decimalN_spec n) as [Hall Hval].
  pose proof (valueOf_bound _ Hall) as Hb. rewrite Hval in Hb.
  assert (Hn : (10 ^ 8 <= n)%N) by (subst n; lia).
  assert (Hlen : 9 <= String.length (decimalN n)).
  { destruct (le_lt_dec 9 (String.length (decimalN n))) as [Hok|Hshort]; [exact Hok|].
    exfalso. assert ((10 ^ N.of_nat (String.length (decimalN n)) <= 10 ^ 8)%N)
      by (apply N.pow_le_mono_r; lia). lia. }
  assert (Hslice : String.length (sliceLast 9 (decimalN n)) = 9).
  { unfold sliceLast. rewrite dropN_length. lia. }
  split.
  - rewrite append_length, Hslice. reflexivity.
  - exists (sliceLast 9 (decimalN n)). split; [reflexivity|]. split; [exact Hslice|].
    split.
    + unfold sliceLast.
      pose proof (takeN_dropN (String.length (decimalN n) - 9) (decimalN n)) as Hsplit.
      rewrite <- Hsplit in Hall. now apply allDigits_app in Hall.
    + rewrite sliceLast_value by exact Hall. now rewrite Hval.
Qed.


End MoreStoreFacts.

(** ** The geocoder: guard, request count, spacing, persistence *)

Section MoreGeocoderFacts.
Import JsString Js Json Geocoder GeocoderSpec.
Context `{Platform}.

Lemma geocode_lookups (place : string) (now1 now2 : Z) (r : reply) (g : geo) :
  lookups (fst (geocodeLocation place now1 now2 r g)) = lookups g \/
  lookups (fst (geocodeLocation place now1 now2 r g)) = (lookups g ++ [place])%list.
Proof.
  unfold geocodeLocation.
  destruct (geoEnter place now1 g); [now left| |];
    right; unfold geoSettle; destruct (readCoords r) as [[c|]|e]; reflexivity.
Qed.

(** X7: a call that runs alone sends at most one request, for its own
    phrase; it sends none and leaves the whole geocoder state untouched
    for the empty phrase and for "Unknown location", for which it returns
    absent, and for a phrase that is in the cache. *)
Theorem geocode_request_count (place : string) (now1 now2 : Z) (r : reply) (g : geo) :
  (lookups (fst (geocodeLocation place now1 now2 r g)) = lookups g \/
   lookups (fst (geocodeLocation place now1 now2 r g)) = (lookups g ++ [place])%list) /\
  geocodeLocation "" now1 now2 r g = (g, None) /\
  geocodeLocation "Unknown location" now1 now2 r g = (g, None) /\
  (forall c, geoCache g !! place = Some c ->
             fst (geocodeLocation place now1 now2 r g) = g).
Proof.
  split; [|split; [reflexivity|split; [reflexivity|]]].
  - apply geocode_lookups.
  - intros c Hc. unfold geocodeLocation.
    destruct (geoEnter_stored_returns place now1 g c Hc) as [v ->]. reflexivity.
Qed.

(** X8: a phrase that names a member of [Object.prototype], such as
    "constructor" or "__proto__", is never looked up: as long as the cache
    has no entry of its own for it, the call returns the inherited member
    instead of coordinates, sends no request and stores nothing. *)
Theorem geocode_prototype_member (place : string) (now1 now2 : Z) (r : reply) (g : geo) :
  In place objectPrototypeMembers ->
  geoCache g !! place = None ->
  geocodeLocation place now1 now2 r g = (g, Some (Inherited place)).
Proof.
  intros Hin Hnone. unfold geocodeLocation, geoEnter, cacheGet. rewrite Hnone.
  assert (Hmem : existsb (String.eqb place) objectPrototypeMembers = true).
  { apply existsb_exists. exists place. split; [exact Hin | apply String.eqb_refl]. }
  rewrite Hmem.
  assert (Hguard : negb (JsString.truthy place) || String.eqb place "Unknown location" = false).
  { cbn in Hin. repeat (destruct Hin as [<- | Hin]; [reflexivity|]). contradiction. }
  now rewrite Hguard.
Qed.

(** X9: for a call that runs with no other geocoder call in between and
    sends a request: if the clock does not run backwards, and the timer,
    when the call asked for one, does not fire before the delay the call
    asked for, then the request is dispatched at least 1100 ms after the
    [lastGeoTs] the call found, and [lastGeoTs] becomes the dispatch time.
    The delay is the one [geoEnter] computes: the call sleeps exactly when
    fewer than 1100 ms have passed, and then for the remainder. *)
Theorem geocode_spacing (place : string) (now1 now2 : Z) (r : reply) (g : geo) :
  (forall v, geoEnter place now1 g <> Returned v) ->
  (now1 <= now2)%Z ->
  (forall waitMs, geoEnter place now1 g = Sleep waitMs -> now1 + waitMs <= now2)%Z ->
  lastGeoTs (fst (geocodeLocation place now1 now2 r g)) = now2 /\
  (1100 <= now2 - lastGeoTs g)%Z /\
  (geoEnter place now1 g = Dispatch <-> 1100 <= now1 - lastGeoTs g)%Z /\
  (geoEnter place now1 g = Sleep (1100 - (now1 - lastGeoTs g))
   <-> now1 - lastGeoTs g < 1100)%Z.
Proof.
  intros Hreach Hclock Htimer.
  rewrite (geocodeLocation_lookup _ _ _ _ _ Hreach).
  destruct (geoEnter_reaches_lookup _ _ _ Hreach) as [Hguard Hmiss].
  assert (Henter : geoEnter place now1 g
                   = if (0 <? Z.max 0 (1100 - (now1 - lastGeoTs g)))%Z
                     then Sleep (Z.max 0 (1100 - (now1 - lastGeoTs g))) else Dispatch).
  { unfold geoEnter. unfold guardPasses in Hguard. now rewrite Hguard, Hmiss. }
  split; [unfold geoSettle; destruct (readCoords r) as [[c|]|e]; reflexivity|].
  rewrite Henter in *.
  destruct (Z.ltb_spec 0 (Z.max 0 (1100 - (now1 - lastGeoTs g)))) as [Hwait|Hnow].
  - specialize (Htimer _ eq_refl). split; [lia|]. split.
    + split; [discriminate | lia].
    + split; [lia|]. intros Hlt. f_equal. lia.
  - split; [lia|]. split.
    + split; [lia | reflexivity].
    + split; [discriminate | lia].
Qed.

Lemma step_keeps_cached (s s' : system) (l : label) (p : string) :
  step s l s' -> is_Some (geoCache (fst s) !! p) -> is_Some (geoCache (fst s') !! p).
Proof.
  intros Hstep Hp; inversion Hstep; subst; cbn [fst snd geoDispatch geoCache] in *; auto.
  destruct (geoSettle_cache place r g) as [Heq | [c' Heq]]; rewrite Heq; [exact Hp|].
  destruct (decide (place = p)) as [->|Hne].
  - rewrite lookup_insert_eq. eauto.
  - now rewrite lookup_insert_ne.
Qed.

Lemma steps_keep_cached (s s' : system) (p : string) :
  steps s s' -> is_Some (geoCache (fst s) !! p) -> is_Some (geoCache (fst s') !! p).
Proof. induction 1; eauto using step_keeps_cached. Qed.

(** X10: however calls overlap, the cache never loses a phrase: once a
    phrase has an entry it has one in every later state, and every call
    that starts with this phrase from then on returns coordinates at once
    and sends no request. *)
Theorem cache_never_forgets (sys sys' : system) (p : string) :
  steps initial sys ->
  is_Some (geoCache (fst sys) !! p) ->
  steps sys sys' ->
  is_Some (geoCache (fst sys') !! p) /\
  forall now1 now2 r,
  exists c, geocodeLocation p now1 now2 r (fst sys') = (fst sys', Some (Coords c)).
Proof.
  intros Hreach Hp Hsteps.
  pose proof (steps_keep_cached _ _ _ Hsteps Hp) as [c Hc].
  assert (Hg : guarded sys') by (eapply steps_guarded, steps_guarded; eauto using initial_guarded).
  split; [eauto|]. intros now1 now2 r. exists c.
  unfold geocodeLocation. rewrite (geoEnter_stored p now1 (fst sys') c); [reflexivity| |exact Hc].
  destruct Hg as [Hg _]. eauto.
Qed.

End MoreGeocoderFacts.

(** ** The webhook handler: answers and effects *)

Section MoreWebhookFacts.
Import JsString Js Store Webhook MoreSpec.
Context `{Platform}.




(** X12: without a shared secret every request passes validation, so no
    request is ever answered 403, whatever its signature header. *)
Theorem no_secret_no_rejection (cfg : config) (e : env) (req : request) (w : world) :
  TWILIO_AUTH_TOKEN cfg = "" ->
  validateTwilioRequest cfg req = true /\
  statusCode (snd (incomingSms cfg e req w)) <> 403.
Proof.
  intros Htoken.
  assert (Hvalid : validateTwilioRequest cfg req = true).
  { unfold validateTwilioRequest. now rewrite Htoken. }
  split; [exact Hvalid|].
  unfold incomingSms. rewrite Hvalid. cbn [negb].
  destruct (Channel.getChannelInfo (field req "From")) as [ci|err]; [|discriminate].
  cbn [bind].
  destruct (Parser.parseHazardReport (or (field req "Body") (VString ""))) as [parsed|err];
    [|discriminate].
  cbn [bind].
  destruct (Geocoder.geocodeLocation _ _ _ _ _) as [g coords].
  destruct (saveReport _ _ _ _ _) as [s1 r].
  destruct (attachMedia _ _ _ _ _ _) as [[s2 files] r']. discriminate.
Qed.


(** X13: a request that is answered 200 publishes exactly one
    [new-report] event, and a request that is answered otherwise publishes
    none.  The published report has the id and the creation time that
    [saveReport] took from its two clock readings, status "pending",
    source "sms" or "whatsapp", and [From] and [MessageSid] as received. *)
Theorem accepted_publishes_once (cfg : config) (e : env) (req : request) (w : world) :
  (statusCode (snd (incomingSms cfg e req w)) = 200 ->
   exists r,
     emitted (fst (incomingSms cfg e req w)) = (emitted w ++ [r])%list /\
     id r = reportId (saveClock e) /\
     createdAt r = createdClock e /\
     status (data r) = "pending" /\
     (source (data r) = "sms" \/ source (data r) = "whatsapp") /\
     phoneNumber (data r) = field req "From" /\
     messageSid (data r) = field req "MessageSid") /\
  (statusCode (snd (incomingSms cfg e req w)) <> 200 ->
   emitted (fst (incomingSms cfg e req w)) = emitted w).
Proof.
  split.
  - intros Hok.
    destruct (incomingSms_accepted _ _ _ _ Hok)
      as (ci & parsed & g & coords & s1 & r & s2 & files & r' & Hci & Hp & Hg & Hsave & Hmedia & Hw).
    pose proof (saveReport_reports (reportData req ci parsed coords) (saveClock e)
                                   (createdClock e) (saveDiskOk e) (store w)) as Hrs.
    rewrite Hsave in Hrs. cbn [fst snd] in Hrs.
    change (take 1000 (r :: ?l)) with (r :: take 999 l) in Hrs.
    destruct (attachMedia_head cfg e req r s1 (mediaFiles w) _ Hrs) as (info & Hr' & _).
    rewrite Hmedia in Hr'. cbn [fst snd] in Hr'.
    assert (Hr : r = mkReport (reportData req ci parsed coords) (reportId (saveClock e))
                              (createdClock e) None).
    { unfold saveReport in Hsave. now injection Hsave as _ <-. }
    exists r'. rewrite Hw. cbn [emitted]. split; [reflexivity|].
    rewrite Hr', Hr. cbn [data id createdAt status source phoneNumber messageSid reportData].
    repeat split.
    unfold Channel.getChannelInfo in Hci.
    destruct (truthy (field req "From")).
    + destruct (callStartsWith (field req "From") "whatsapp:") as [b|]; [|discriminate].
      cbn [bind] in Hci. destruct (truthy b).
      * destruct (callReplace (field req "From") "whatsapp:"); [|discriminate].
        cbn [bind] in Hci. injection Hci as <-. now right.
      * cbn [bind] in Hci. injection Hci as <-. now left.
    + cbn [bind] in Hci. destruct (truthy (field req "From")).
      * destruct (callReplace (field req "From") "whatsapp:"); [|discriminate].
        cbn [bind] in Hci. injection Hci as <-. now right.
      * cbn [bind] in Hci. injection Hci as <-. now left.
  - unfold incomingSms.
    destruct (negb (validateTwilioRequest cfg req)); [reflexivity|].
    destruct (Channel.getChannelInfo (field req "From")) as [ci|err]; [|reflexivity].
    cbn [bind].
    destruct (Parser.parseHazardReport (or (field req "Body") (VString ""))) as [parsed|err];
      [|reflexivity].
    cbn [bind].
    destruct (Geocoder.geocodeLocation _ _ _ _ _) as [g coords].
    destruct (saveReport _ _ _ _ _) as [s1 r].
    destruct (attachMedia _ _ _ _ _ _) as [[s2 files] r'].
    intros Hnot. now contradiction Hnot.
Qed.

(** The parts of an accepted run, named. *)
Lemma accepted_anatomy (cfg : config) (e : env) (req : request) (w : world) :
  statusCode (snd (incomingSms cfg e req w)) = 200 ->
  exists ci parsed s2 files r',
    Channel.getChannelInfo (field req "From") = Ok ci /\
    Parser.parseHazardReport (or (field req "Body") (VString "")) = Ok parsed /\
    let geo := Geocoder.geocodeLocation (Parser.location parsed) (geoClock1 e) (geoClock2 e)
                                        (geoReply e) (geocoder w) in
    let r := mkReport (reportData req ci parsed (snd geo)) (reportId (saveClock e))
                      (createdClock e) None in
    let s1 := persistReports (saveDiskOk e)
                (mkStore (r :: take 999 (reports (store w))) (reportsFile (store w))) in
    attachMedia cfg e req r s1 (mediaFiles w) = (s2, files, r') /\
    fst (incomingSms cfg e req w)
    = mkWorld (fst geo) s2 files (emitted w ++ [r'])%list
              (sendConfirmationMessage cfg (field req "From") r' (Channel.channel ci)
                                       (outbox w)).
Proof.
  intros Hok.
  destruct (incomingSms_accepted _ _ _ _ Hok)
    as (ci & parsed & g & coords & s1 & r & s2 & files & r' & Hci & Hp & Hg & Hsave & Hmedia & Hw).
  exists ci, parsed, s2, files, r'. split; [exact Hci|]. split; [exact Hp|].
  rewrite Hg. cbn [fst snd].
  assert (Hs1 : (s1, r)
                = (persistReports (saveDiskOk e)
                     (mkStore (mkReport (reportData req ci parsed coords) (reportId (saveClock e))
                                        (createdClock e) None
                               :: take 999 (reports (store w))) (reportsFile (store w))),
                   mkReport (reportData req ci parsed coords) (reportId (saveClock e))
                            (createdClock e) None)).
  { rewrite <- Hsave. unfold saveReport. f_equal. f_equal. f_equal.
    destruct (Nat.ltb_spec 1000 (length (mkReport (reportData req ci parsed coords)
                                                  (reportId (saveClock e)) (createdClock e) None
                                         :: reports (store w)))) as [Hlong|Hshort].
    - reflexivity.
    - change (?x :: take 999 ?l) with (take 1000 (x :: l)). now rewrite take_ge. }
  injection Hs1 as -> ->. split; [exact Hmedia | exact Hw].
Qed.

Lemma attachMedia_disk (cfg : config) (e : env) (req : request) (r : report)
      (s s' : Store.store) (files : list (string * N)) (save media : bool) :
  reports s' = reports s ->
  snd (attachMedia cfg (withDisk e save media) req r s' files)
  = snd (attachMedia cfg e req r s files) /\
  snd (fst (attachMedia cfg (withDisk e save media) req r s' files))
  = snd (fst (attachMedia cfg e req r s files)) /\
  reports (fst (fst (attachMedia cfg (withDisk e save media) req r s' files)))
  = reports (fst (fst (attachMedia cfg e req r s files))).
Proof.
  intros Hs. unfold attachMedia, downloadMedia, withDisk.
  cbn [mediaReply mediaClock mediaWriteOk mediaDiskOk].
  destruct (truthy (mediaDeclared (field req "NumMedia")) && truthy (field req "MediaUrl0"));
    [|now cbn].
  destruct (negb (truthy (field req "MediaUrl0"))
            || negb (JsString.truthy (TWILIO_ACCOUNT_SID cfg))
            || negb (JsString.truthy (TWILIO_AUTH_TOKEN cfg))); [now cbn|].
  destruct (mediaReply e) as [|[|] bytes]; [now cbn| |now cbn].
  destruct (mediaWriteOk e); [|now cbn].
  cbn [reports reportsFile]. rewrite Hs.
  destruct (findIndex _ _) as [i|]; cbn [fst snd]; rewrite ?persistReports_reports;
    cbn [reports]; auto.
Qed.

(** X14: what the two writes of [reports.json] do shows nowhere but in
    the file: with any other outcome of the writes the handler gives the
    same answer and leaves the same reports in memory, the same published
    events, the same outgoing messages, the same geocoder state and the
    same media directory. *)
Theorem disk_failures_stay_on_disk (cfg : config) (e : env) (req : request) (w : world)
        (save media : bool) :
  snd (incomingSms cfg (withDisk e save media) req w) = snd (incomingSms cfg e req w) /\
  reports (store (fst (incomingSms cfg (withDisk e save media) req w)))
  = reports (store (fst (incomingSms cfg e req w))) /\
  emitted (fst (incomingSms cfg (withDisk e save media) req w))
  = emitted (fst (incomingSms cfg e req w)) /\
  outbox (fst (incomingSms cfg (withDisk e save media) req w))
  = outbox (fst (incomingSms cfg e req w)) /\
  geocoder (fst (incomingSms cfg (withDisk e save media) req w))
  = geocoder (fst (incomingSms cfg e req w)) /\
  mediaFiles (fst (incomingSms cfg (withDisk e save media) req w))
  = mediaFiles (fst (incomingSms cfg e req w)).
Proof.
  unfold incomingSms.
  destruct (negb (validateTwilioRequest cfg req)); [repeat split|].
  destruct (Channel.getChannelInfo (field req "From")) as [ci|err]; [|repeat split].
  cbn [bind].
  destruct (Parser.parseHazardReport (or (field req "Body") (VString ""))) as [parsed|err];
    [|repeat split].
  cbn [bind].
  change (geoClock1 (withDisk e save media)) with (geoClock1 e).
  change (geoClock2 (withDisk e save media)) with (geoClock2 e).
  change (geoReply (withDisk e save media)) with (geoReply e).
  change (saveClock (withDisk e save media)) with (saveClock e).
  change (createdClock (withDisk e save media)) with (createdClock e).
  change (saveDiskOk (withDisk e save media)) with save.
  destruct (Geocoder.geocodeLocation _ _ _ _ _) as [g coords].
  unfold saveReport.
  set (r := mkReport (reportData req ci parsed coords) (reportId (saveClock e))
                     (createdClock e) None).
  set (rs := if (1000 <? length (r :: reports (store w)))%nat
             then take 1000 (r :: reports (store w)) else r :: reports (store w)).
  destruct (attachMedia_disk cfg e req r
              (persistReports (saveDiskOk e) (mkStore rs (reportsFile (store w))))
              (persistReports save (mkStore rs (reportsFile (store w))))
              (mediaFiles w) save media) as (Hr & Hfiles & Hreports).
  { now rewrite !persistReports_reports. }
  destruct (attachMedia cfg (withDisk e save media) req r _ _) as [[s2' files'] r''].
  destruct (attachMedia cfg e req r _ _) as [[s2 files] r'].
  cbn [fst snd] in Hr, Hfiles, Hreports. subst r'' files'.
  cbn [fst snd store emitted outbox geocoder mediaFiles]. rewrite Hreports.
  repeat split.
Qed.

Lemma credentials_set (cfg : config) :
  TWILIO_ACCOUNT_SID cfg <> "" -> TWILIO_AUTH_TOKEN cfg <> "" ->
  negb (JsString.truthy (TWILIO_ACCOUNT_SID cfg))
  || negb (JsString.truthy (TWILIO_AUTH_TOKEN cfg)) = false.
Proof.
  intros Hsid Htoken.
  destruct (TWILIO_ACCOUNT_SID cfg); [congruence|].
  destruct (TWILIO_AUTH_TOKEN cfg); [congruence|]. reflexivity.
Qed.

(** X15: with both credentials set, an accepted request whose [From] is
    a string hands exactly one message to the gateway, with the
    confirmation text of the published report.  For an address that
    starts with "whatsapp:" the recipient is the address itself and the
    sender is [TWILIO_WHATSAPP_FROM], or the sandbox number when that is
    unset; for any other address the sender is [TWILIO_PHONE_NUMBER] and
    the recipient is the address without its first "whatsapp:". *)
Theorem confirmation_follows_channel (cfg : config) (e : env) (req : request) (w : world)
        (s : string) :
  statusCode (snd (incomingSms cfg e req w)) = 200 ->
  TWILIO_ACCOUNT_SID cfg <> "" -> TWILIO_AUTH_TOKEN cfg <> "" ->
  field req "From" = VString s ->
  exists r,
    last (emitted (fst (incomingSms cfg e req w))) = Some r /\
    outbox (fst (incomingSms cfg e req w))
    = (outbox w ++
       [if startsWith s "whatsapp:"
        then mkOutbound (confirmationText r)
                        (if JsString.truthy (TWILIO_WHATSAPP_FROM cfg)
                         then TWILIO_WHATSAPP_FROM cfg else "whatsapp:+14155208886")
                        (VString s)
        else mkOutbound (confirmationText r) (TWILIO_PHONE_NUMBER cfg)
                        (VString (removeFirst s "whatsapp:"))])%list.
Proof.
  intros Hok Hsid Htoken Hfrom.
  destruct (accepted_anatomy _ _ _ _ Hok)
    as (ci & parsed & s2 & files & r' & Hci & _ & _ & Hw).
  cbv zeta in Hw. exists r'. rewrite Hw. cbn [emitted outbox].
  split; [apply last_snoc|].
  unfold sendConfirmationMessage. rewrite (credentials_set cfg Hsid Htoken).
  rewrite Hfrom in *. unfold Channel.getChannelInfo in Hci.
  destruct (JsString.truthy s) eqn:Hs.
  - cbn [truthy callStartsWith bind] in Hci. rewrite Hs in Hci.
    unfold confirmationAddress.
    destruct (startsWith s "whatsapp:") eqn:Hp.
    + cbn [truthy callReplace bind] in Hci. injection Hci as <-.
      cbn [Channel.channel]. change (String.eqb "whatsapp" "whatsapp") with true.
      cbn [callStartsWith bind truthy]. rewrite Hp. reflexivity.
    + cbn [truthy bind] in Hci. injection Hci as <-.
      cbn [Channel.channel]. change (String.eqb "sms" "whatsapp") with false.
      reflexivity.
  - destruct s; [|discriminate]. cbn in Hci. injection Hci as <-. reflexivity.
Qed.

(** X16: an accepted request sends no confirmation at all when a
    credential is missing, or when [From] is absent (the [TypeError] of
    the address formatting is caught); the report is stored and published
    all the same. *)
Theorem no_confirmation_without_sender (cfg : config) (e : env) (req : request) (w : world) :
  statusCode (snd (incomingSms cfg e req w)) = 200 ->
  TWILIO_ACCOUNT_SID cfg = "" \/ TWILIO_AUTH_TOKEN cfg = "" \/
  field req "From" = VUndefined ->
  outbox (fst (incomingSms cfg e req w)) = outbox w /\
  length (emitted (fst (incomingSms cfg e req w))) = S (length (emitted w)) /\
  reports (store (fst (incomingSms cfg e req w))) <> [].
Proof.
  intros Hok Hwhy.
  destruct (accepted_report _ _ _ _ Hok) as (ci0 & parsed0 & coords & info & _ & _ & Hreports & _).
  destruct (accepted_anatomy _ _ _ _ Hok)
    as (ci & parsed & s2 & files & r' & Hci & _ & _ & Hw).
  cbv zeta in Hw. split; [|split].
  - rewrite Hw. cbn [outbox]. unfold sendConfirmationMessage.
    destruct Hwhy as [-> | [-> | Hfrom]].
    + reflexivity.
    + now rewrite orb_true_r.
    + rewrite Hfrom in *. cbn in Hci. injection Hci as <-. cbn.
      now destruct (negb _ || negb _).
  - rewrite Hw. cbn [emitted]. rewrite length_app. cbn. lia.
  - rewrite Hreports. discriminate.
Qed.


(** The geocoder's part in an accepted run. *)
Lemma accepted_geocoding (cfg : config) (e : env) (req : request) (w : world) :
  statusCode (snd (incomingSms cfg e req w)) = 200 ->
  exists r,
    head (reports (store (fst (incomingSms cfg e req w)))) = Some r /\
    geocoder (fst (incomingSms cfg e req w))
    = fst (Geocoder.geocodeLocation (location (data r)) (geoClock1 e) (geoClock2 e)
                                    (geoReply e) (geocoder w)) /\
    coordinates (data r)
    = snd (Geocoder.geocodeLocation (location (data r)) (geoClock1 e) (geoClock2 e)
                                    (geoReply e) (geocoder w)).
Proof.
  intros Hok.
  destruct (accepted_anatomy _ _ _ _ Hok)
    as (ci & parsed & s2 & files & r' & _ & _ & Hmedia & Hw).
  cbv zeta in Hmedia, Hw. rewrite Hw. cbn [store geocoder].
  match type of Hmedia with attachMedia _ _ _ ?r ?s1 _ = _ =>
    destruct (attachMedia_head cfg e req r s1 (mediaFiles w) (take 999 (reports (store w))))
      as (info & Hr' & Hreports)
  end.
  { now rewrite persistReports_reports. }
  rewrite Hmedia in Hr', Hreports. cbn [fst snd] in Hr', Hreports.
  exists r'. rewrite Hreports, Hr'. cbn [head data id createdAt location coordinates reportData].
  repeat split.
Qed.

(** X18: an accepted request sends at most one geocoding request, for
    the location of its report; when that location is "Unknown location"
    or empty it sends none, the geocoder state is untouched and the
    report has no coordinates. *)
Theorem unknown_location_not_looked_up (cfg : config) (e : env) (req : request) (w : world) :
  statusCode (snd (incomingSms cfg e req w)) = 200 ->
  exists r,
    head (reports (store (fst (incomingSms cfg e req w)))) = Some r /\
    (Geocoder.lookups (geocoder (fst (incomingSms cfg e req w)))
     = Geocoder.lookups (geocoder w) \/
     Geocoder.lookups (geocoder (fst (incomingSms cfg e req w)))
     = (Geocoder.lookups (geocoder w) ++ [location (data r)])%list) /\
    (location (data r) = "Unknown location" \/ location (data r) = "" ->
     geocoder (fst (incomingSms cfg e req w)) = geocoder w /\
     coordinates (data r) = None).
Proof.
  intros Hok. destruct (accepted_geocoding _ _ _ _ Hok) as (r & Hhead & Hg & Hc).
  exists r. split; [exact Hhead|]. rewrite Hg, Hc.
  split; [apply geocode_lookups|].
  intros [-> | ->]; split; reflexivity.
Qed.


End MoreWebhookFacts.

(** ** The further properties on concrete runs *)

Section MoreRunFacts.
Import JsString Js Json Geocoder GeocoderSpec Store Webhook Decimal Runs MoreRuns.
#[local] Existing Instance plainPlatform.

Lemma reportId_format_witness :
  (10 ^ 8 <= t0)%Z /\
  String.length (reportId t0) = 12 /\
  exists digits,
    reportId t0 = "REP" ++ digits /\
    String.length digits = 9 /\
    allDigits digits /\
    valueOf digits = (Z.to_N t0 mod 10 ^ 9)%N.
Proof.
  assert (Ht : (10 ^ 8 <= t0)%Z) by (unfold t0; lia).
  split; [exact Ht|]. exact (reportId_format t0 Ht).
Defined.

Lemma geocode_prototype_member_witness :
  geocodeLocation "constructor" t0 t0 chennai geo0 = (geo0, Some (Inherited "constructor")).
Proof.
  apply (geocode_prototype_member "constructor" t0 t0 chennai geo0).
  - cbn. auto.
  - reflexivity.
Defined.

Lemma geocode_spacing_witness :
  lastGeoTs (fst (geocodeLocation place (t0 + 100) (t0 + 1100) chennai
                                  (geoDispatch place t0 geo0))) = (t0 + 1100)%Z /\
  (1100 <= t0 + 1100 - lastGeoTs (geoDispatch place t0 geo0))%Z /\
  geoEnter place (t0 + 100) (geoDispatch place t0 geo0) = Sleep 1000.
Proof.
  destruct (geocode_spacing place (t0 + 100) (t0 + 1100) chennai (geoDispatch place t0 geo0))
    as (Hts & Hgap & _ & _).
  - intros v. vm_compute. discriminate.
  - unfold t0. lia.
  - intros waitMs Hsleep. vm_compute in Hsleep. injection Hsleep as <-. unfold t0. lia.
  - split; [exact Hts|]. split; [exact Hgap|]. reflexivity.
Defined.

Lemma cache_never_forgets_witness :
  is_Some (geoCache (fst afterSecond) !! place) /\
  forall now1 now2 r,
  exists c, geocodeLocation place now1 now2 r (fst afterSecond)
            = (fst afterSecond, Some (Coords c)).
Proof.
  apply (cache_never_forgets afterFirst afterSecond place).
  - exact steps_to_afterFirst.
  - exists (coordsOf "13.0500" "80.2824"). vm_compute. reflexivity.
  - exact steps_to_afterSecond.
Defined.

Lemma no_secret_no_rejection_witness :
  validateTwilioRequest noSecret tampered = true /\
  statusCode (snd (incomingSms noSecret quiet tampered world0)) <> 403.
Proof.
  apply (no_secret_no_rejection noSecret quiet tampered world0). reflexivity.
Defined.

Lemma accepted_noNumMedia : statusCode (snd (incomingSms cfg quiet noNumMedia world0)) = 200.
Proof. vm_compute. reflexivity. Defined.

Lemma accepted_withPhoto : statusCode (snd (incomingSms cfg helpful withPhoto world0)) = 200.
Proof. vm_compute. reflexivity. Defined.

Lemma accepted_anonymous : statusCode (snd (incomingSms cfg quiet anonymous world0)) = 200.
Proof. vm_compute. reflexivity. Defined.

Lemma accepted_emptyBody : statusCode (snd (incomingSms cfg quiet emptyBody world0)) = 200.
Proof. vm_compute. reflexivity. Defined.

Lemma accepted_publishes_once_witness :
  exists r,
    emitted (fst (incomingSms cfg quiet noNumMedia world0)) = [r] /\
    id r = reportId (t0 + 1200).
Proof.
  destruct (accepted_publishes_once cfg quiet noNumMedia world0) as [Hok _].
  destruct (Hok accepted_noNumMedia) as (r & Hem & Hid & _).
  exists r. auto.
Defined.

Lemma confirmation_follows_channel_witness :
  exists r,
    last (emitted (fst (incomingSms cfg helpful withPhoto world0))) = Some r /\
    outbox (fst (incomingSms cfg helpful withPhoto world0))
    = [mkOutbound (confirmationText r) "whatsapp:+14155208886"
                  (VString "whatsapp:+15551234567")].
Proof.
  destruct (confirmation_follows_channel cfg helpful withPhoto world0 "whatsapp:+15551234567"
                                         accepted_withPhoto)
    as (r & Hlast & Hout); try discriminate; [reflexivity|].
  exists r. split; [exact Hlast | exact Hout].
Defined.

Lemma no_confirmation_without_sender_witness :
  outbox (fst (incomingSms cfg quiet anonymous world0)) = [] /\
  length (emitted (fst (incomingSms cfg quiet anonymous world0))) = 1 /\
  reports (store (fst (incomingSms cfg quiet anonymous world0))) <> [].
Proof.
  apply (no_confirmation_without_sender cfg quiet anonymous world0 accepted_anonymous).
  right. right. reflexivity.
Defined.


Lemma unknown_location_not_looked_up_witness :
  geocoder (fst (incomingSms cfg quiet emptyBody world0)) = geocoder world0.
Proof.
  destruct (unknown_location_not_looked_up cfg quiet emptyBody world0 accepted_emptyBody)
    as (r & Hhead & _ & Hnone).
  apply Hnone. left. vm_compute in Hhead. injection Hhead as <-. reflexivity.
Defined.


End MoreRunFacts.
